(** * SCTP daytime client and server (daytimed.c, daytime.c)

    A shallow embedding of the two programs, and the properties of their
    error handling, message framing and session handling.

    The programs are thin wrappers around system calls, so the embedding
    threads an explicit process state (a call counter, [errno] and the
    trace of observable events) through every call, and takes the answers
    of the operating system from an oracle record [os].  The C library
    routines the programs rely on ([strlen], [strstr], [strftime], the
    decimal conversion of [printf]) are modelled on character lists. *)

From Stdlib Require Import ZArith Lia Ascii String.
From stdpp Require Import base list.

Open Scope Z_scope.

(** ** C strings and the C library *)

Module CLib.

Definition text := list ascii.

Definition txt (s : string) : text := list_ascii_of_string s.

Definition NUL : ascii := "000"%char.
Definition TAB : ascii := "009"%char.
Definition LF : ascii := "010"%char.
Definition CR : ascii := "013"%char.

(** The two-character terminator "\r\n". *)
Definition CRLF : text := [CR; LF].

Definition is_nul (c : ascii) : bool := Ascii.eqb c NUL.

(** The C string held in a buffer: the bytes before the first NUL. *)
Fixpoint c_str (buf : list ascii) : text :=
  match buf with
  | [] => []
  | c :: rest => if is_nul c then [] else c :: c_str rest
  end.

Definition strlen (buf : list ascii) : Z := Z.of_nat (length (c_str buf)).

Fixpoint starts_with (needle hay : text) : bool :=
  match needle, hay with
  | [], _ => true
  | _ :: _, [] => false
  | a :: needle', b :: hay' => Ascii.eqb a b && starts_with needle' hay'
  end.

Fixpoint find_from (needle hay : text) (i : nat) : option nat :=
  if starts_with needle hay then Some i
  else match hay with
       | [] => None
       | _ :: hay' => find_from needle hay' (S i)
       end.

(** [strstr buf needle]: offset of the first occurrence of [needle] in the
    C string held in [buf], [None] for the null pointer. *)
Definition strstr (buf : list ascii) (needle : text) : option nat :=
  find_from needle (c_str buf) 0.

(** Copy [data] to the start of [buf].  Bytes that would fall behind the
    end of the buffer are not stored (in C such a write is undefined). *)
Definition blit (data buf : list ascii) : list ascii :=
  take (length buf) (data ++ drop (length data) buf).

(** *** Decimal conversion *)

Definition digit_char (d : Z) : ascii := ascii_of_nat (48 + Z.to_nat d).

Fixpoint dec_digits (fuel : nat) (n : Z) (acc : text) : text :=
  let acc' := digit_char (n mod 10) :: acc in
  match fuel with
  | O => acc'
  | S fuel' => if n / 10 =? 0 then acc' else dec_digits fuel' (n / 10) acc'
  end.

(** Digits of a non-negative number; 20 rounds cover 64-bit values. *)
Definition dec_nonneg (n : Z) : text := dec_digits 20 n [].

(** [printf("%d")]. *)
Definition dec_of_Z (z : Z) : text :=
  if z <? 0 then "-"%char :: dec_nonneg (- z) else dec_nonneg z.

(** A value computed in the type [int]: the result wraps around. *)
Definition wrap_int (z : Z) : Z := (z + 2 ^ 31) mod 2 ^ 32 - 2 ^ 31.

(** An [int] as the numeric conversions of [strftime] print it: the
    digits of the magnitude, zero-padded until the number, its sign
    included, has [width] characters; the sign comes first. *)
Definition dec_padded (width : nat) (z : Z) : text :=
  let ds := dec_nonneg (Z.abs z) in
  if z <? 0
  then "-"%char :: replicate (width - 1 - length ds) "0"%char ++ ds
  else replicate (width - length ds) "0"%char ++ ds.

(** *** Broken-down time and strftime *)

Record tm := {
  tm_sec : Z;
  tm_min : Z;
  tm_hour : Z;
  tm_mday : Z;
  tm_mon : Z;
  tm_year : Z
}.

(** The conversion specifications of ISO C used by the server:
    %Y year, %m month 01-12, %d day 01-31, %H, %M, %S, and the
    composites %F = %Y-%m-%d and %T = %H:%M:%S.  The year and the month
    are sums of two [int]s. *)
Definition conv_Y (t : tm) : text :=
  dec_padded 1 (wrap_int (tm_year t + 1900)).
Definition conv_m (t : tm) : text := dec_padded 2 (wrap_int (tm_mon t + 1)).
Definition conv_d (t : tm) : text := dec_padded 2 (tm_mday t).
Definition conv_H (t : tm) : text := dec_padded 2 (tm_hour t).
Definition conv_M (t : tm) : text := dec_padded 2 (tm_min t).
Definition conv_S (t : tm) : text := dec_padded 2 (tm_sec t).

Definition conv_F (t : tm) : text :=
  conv_Y t ++ "-"%char :: conv_m t ++ "-"%char :: conv_d t.

Definition conv_T (t : tm) : text :=
  conv_H t ++ ":"%char :: conv_M t ++ ":"%char :: conv_S t.

Definition conversion (c : ascii) (t : tm) : option text :=
  if Ascii.eqb c "F" then Some (conv_F t)
  else if Ascii.eqb c "T" then Some (conv_T t)
  else if Ascii.eqb c "Y" then Some (conv_Y t)
  else if Ascii.eqb c "m" then Some (conv_m t)
  else if Ascii.eqb c "d" then Some (conv_d t)
  else if Ascii.eqb c "H" then Some (conv_H t)
  else if Ascii.eqb c "M" then Some (conv_M t)
  else if Ascii.eqb c "S" then Some (conv_S t)
  else if Ascii.eqb c "%" then Some ["%"%char]
  else None.

(** Expansion of a format; ordinary characters are copied. *)
Fixpoint strftime_expand (fmt : text) (t : tm) : text :=
  match fmt with
  | [] => []
  | c :: rest =>
      match rest with
      | [] => [c]
      | d :: rest' =>
          if Ascii.eqb c "%" then
            match conversion d t with
            | Some s => s ++ strftime_expand rest' t
            | None => c :: strftime_expand rest t
            end
          else c :: strftime_expand rest t
      end
  end.

(** [strftime(s, maxsize, format, timeptr)]: when the expansion and its
    terminating NUL fit in [maxsize] bytes they are stored and the length
    is returned; otherwise the result is 0 and the contents of the array
    are indeterminate (the model leaves the array as it was). *)
Definition strftime (buf : list ascii) (maxsize : Z) (fmt : text) (t : tm)
  : Z * list ascii :=
  let out := strftime_expand fmt t in
  if Z.of_nat (length out) + 1 <=? maxsize
  then (Z.of_nat (length out), blit (out ++ [NUL]) buf)
  else (0, buf).

End CLib.

Import CLib.

(** ** The process, the operating system and the effect monad *)

Module Sys.

Definition sockaddr := text.

Record addrinfo := {
  ai_family : Z;
  ai_socktype : Z;
  ai_addr : sockaddr
}.

(** The fields of [struct addrinfo] that the programs set as hints. *)
Record hints := {
  h_flags : Z;
  h_family : Z;
  h_socktype : Z
}.

(** Observable actions of a process, in the order they happen. *)
Inductive event :=
| Stdout (s : text)
| Stderr (s : text)
| Openlog (ident : text)
| Syslog (priority : Z) (s : text)
| Closelog
| Socket (domain type protocol ret : Z)
| Setsockopt (fd level optname ret : Z)
| Bind (fd : Z) (addr : sockaddr) (ret : Z)
| Listen (fd backlog ret : Z)
| Connect (fd : Z) (addr : sockaddr) (ret : Z)
| Accept (fd ret : Z)
| Getpeername (fd ret : Z)
| Sendmsg (fd : Z) (payload : text) (stream ret : Z)
| Recvmsg (fd len ret : Z)
| Close (fd : Z).

(** The answers of the operating system and of the resolver.  Every call
    that can answer differently from one call to the next is indexed by
    the number of calls the process has made before it. *)
Record os := {
  os_getaddrinfo : nat -> option text -> text -> hints -> Z * list addrinfo;
  os_gai_strerror : Z -> text;
  os_strerror : Z -> text;
  os_errno : nat -> Z;
  os_socket : nat -> Z -> Z -> Z -> Z;
  os_setsockopt : nat -> Z -> Z -> Z -> Z;
  os_bind : nat -> Z -> sockaddr -> Z;
  os_listen : nat -> Z -> Z -> Z;
  os_connect : nat -> Z -> sockaddr -> Z;
  os_accept : nat -> Z -> Z * sockaddr;
  os_getpeername : nat -> Z -> Z * sockaddr;
  os_getnameinfo : nat -> sockaddr -> Z -> Z * (text * text);
  os_sendmsg : nat -> Z -> text -> Z -> Z;
  os_recvmsg : nat -> Z -> option (text * Z);
  os_close : nat -> Z -> Z;
  os_time : nat -> Z;
  os_localtime : Z -> option tm;
  os_gmtime : Z -> option tm;
  os_stack : nat -> list ascii
}.

Record proc := {
  tick : nat;
  errno : Z;
  trace : list event
}.

Definition proc0 : proc := {| tick := 0; errno := 0; trace := [] |}.

(** A computation returns, leaves the process through [exit], or is still
    running when the fuel of a loop is used up. *)
Inductive res (A : Type) :=
| Ret (a : A)
| Exit (status : Z)
| Running.

Arguments Ret {A} a.
Arguments Exit {A} status.
Arguments Running {A}.

Definition M (A : Type) : Type := proc -> res A * proc.

Definition ret {A} (a : A) : M A := fun p => (Ret a, p).

Definition bind {A B} (m : M A) (k : A -> M B) : M B :=
  fun p =>
    match m p with
    | (Ret a, p') => k a p'
    | (Exit st, p') => (Exit st, p')
    | (Running, p') => (Running, p')
    end.

Notation "'let*' x ':=' m 'in' k" := (bind m (fun x => k))
  (at level 10, x pattern, m at level 100, k at level 200).

Notation "m ';;' k" := (bind m (fun _ => k))
  (at level 100, k at level 200, right associativity).

Definition exit {A} (status : Z) : M A := fun p => (Exit status, p).

Definition running {A} : M A := fun p => (Running, p).

Definition emit (e : event) : M unit :=
  fun p => (Ret tt,
            {| tick := tick p; errno := errno p; trace := trace p ++ [e] |}).

Definition get_errno : M Z := fun p => (Ret (errno p), p).

(** A library call that consults the environment without setting errno. *)
Definition ask {A} (answer : nat -> A) : M A :=
  fun p => (Ret (answer (tick p)),
            {| tick := S (tick p); errno := errno p; trace := trace p |}).

(** A system call: its answer comes from the oracle, a negative answer
    sets errno, and the call is recorded. *)
Definition syscall {A} (o : os) (answer : nat -> A) (status : A -> Z)
    (ev : A -> event) : M A :=
  fun p =>
    let r := answer (tick p) in
    (Ret r,
     {| tick := S (tick p);
        errno := if status r <? 0 then os_errno o (tick p) else errno p;
        trace := trace p ++ [ev r] |}).

Definition EXIT_SUCCESS : Z := 0.
Definition EXIT_FAILURE : Z := 1.
Definition AF_UNSPEC : Z := 0.
Definition SOCK_STREAM : Z := 1.
Definition AI_PASSIVE : Z := 1.
Definition IPPROTO_SCTP : Z := 132.
Definition SOL_SOCKET : Z := 1.
Definition SO_REUSEADDR : Z := 2.
Definition SOL_SCTP : Z := 132.
Definition SCTP_EVENTS : Z := 11.
Definition NI_NUMERICHOST : Z := 1.
Definition NI_NUMERICSERV : Z := 2.
Definition LOG_ERR : Z := 3.
Definition LOG_DEBUG : Z := 7.

(** Width of [size_t] and of the [sinfo_stream] field. *)
Definition SIZE_MOD : Z := 2 ^ 64.
Definition U16_MOD : Z := 2 ^ 16.

Section Calls.

Variable o : os.

Definition getaddrinfo (node : option text) (service : text) (h : hints)
  : M (Z * list addrinfo) :=
  ask (fun t => os_getaddrinfo o t node service h).

Definition gai_strerror (n : Z) : text := os_gai_strerror o n.

Definition strerror (e : Z) : text := os_strerror o e.

Definition socket (domain type protocol : Z) : M Z :=
  syscall o (fun t => os_socket o t domain type protocol) id
    (Socket domain type protocol).

Definition setsockopt (fd level optname : Z) : M Z :=
  syscall o (fun t => os_setsockopt o t fd level optname) id
    (Setsockopt fd level optname).

Definition bind_addr (fd : Z) (addr : sockaddr) : M Z :=
  syscall o (fun t => os_bind o t fd addr) id (Bind fd addr).

Definition listen (fd backlog : Z) : M Z :=
  syscall o (fun t => os_listen o t fd backlog) id (Listen fd backlog).

Definition connect (fd : Z) (addr : sockaddr) : M Z :=
  syscall o (fun t => os_connect o t fd addr) id (Connect fd addr).

Definition accept (fd : Z) : M (Z * sockaddr) :=
  syscall o (fun t => os_accept o t fd) fst (fun r => Accept fd (fst r)).

Definition getpeername (fd : Z) : M (Z * sockaddr) :=
  syscall o (fun t => os_getpeername o t fd) fst
    (fun r => Getpeername fd (fst r)).

Definition getnameinfo (sa : sockaddr) (flags : Z) : M (Z * (text * text)) :=
  ask (fun t => os_getnameinfo o t sa flags).

Definition close (fd : Z) : M Z :=
  syscall o (fun t => os_close o t fd) id (fun _ => Close fd).

Definition time : M Z := ask (os_time o).

Definition localtime (ticks : Z) : option tm := os_localtime o ticks.

Definition gmtime (ticks : Z) : option tm := os_gmtime o ticks.

(** [sctp_sendmsg(fd, msg, len, NULL, 0, 0, 0, stream, 0, 0)]: the payload
    is the first [len] bytes of [msg]. *)
Definition sctp_sendmsg (fd : Z) (msg : list ascii) (len : Z) (stream : Z)
  : M Z :=
  let payload := take (Z.to_nat len) msg in
  syscall o (fun t => os_sendmsg o t fd payload stream) id
    (Sendmsg fd payload stream).

(** [sctp_recvmsg(fd, msg, len, NULL, 0, &sinfo, &flags)]: at most [len]
    bytes of the pending message are stored at the start of [msg]; the
    result is their number, 0 at the end of the association and -1 on
    error.  The second component is [msg] afterwards, the third the
    [sinfo_stream] field (a 16-bit unsigned value; the program reads it
    only after a positive result). *)
Definition sctp_recvmsg (fd : Z) (msg : list ascii) (len : Z)
  : M (Z * list ascii * Z) :=
  syscall o
    (fun t =>
       match os_recvmsg o t fd with
       | None => (-1, msg, 0)
       | Some (data, stream) =>
           let got := take (Z.to_nat len) data in
           (Z.of_nat (length got), blit got msg, stream mod U16_MOD)
       end)
    (fun r => fst (fst r))
    (fun r => Recvmsg fd len (fst (fst r))).

(** An automatic array of [n] bytes: its contents are whatever the stack
    holds. *)
Definition local_array (n : nat) : M (list ascii) :=
  fun p => (Ret (take n (os_stack o (tick p) ++ replicate n NUL)), p).

Definition fprintf_stderr (s : text) : M unit := emit (Stderr s).
Definition printf (s : text) : M unit := emit (Stdout s).
Definition syslog (priority : Z) (s : text) : M unit :=
  emit (Syslog priority s).
Definition openlog (ident : text) : M unit := emit (Openlog ident).
Definition closelog : M unit := emit Closelog.

End Calls.

End Sys.

Import Sys.

(** ** daytimed.c: the server *)

Module Daytimed.

Section Server.

Variable o : os.

Definition progname : text := txt "daytimed".

Definition DAYTIME_FORMAT : text := txt "%F %T" ++ CRLF.

(** Store the current date and time of the day in [buffer]; the result is
    the buffer afterwards.  A failed breakdown sets it to the empty
    string. *)
Definition daytime (buffer : list ascii) (size : Z) (local : Z)
  : M (list ascii) :=
  let* ticks := time o in
  let tm := if local =? 0 then gmtime o ticks else localtime o ticks in
  match tm with
  | None =>
      let buffer := <[0%nat := NUL]> buffer in
      syslog LOG_ERR (txt "localtime or gmtime failed") ;;
      ret buffer
  | Some tm => ret (snd (strftime buffer size DAYTIME_FORMAT tm))
  end.

(** The loop of [sctp_listen] over the address list.  The result is the
    list from the entry the loop stopped at ([[]] for the null pointer)
    and the value of [fd]. *)
Fixpoint bind_loop (ai : list addrinfo) (fd : Z) : M (list addrinfo * Z) :=
  match ai with
  | [] => ret ([], fd)
  | a :: ai_next =>
      let* fd := socket o (ai_family a) (ai_socktype a) IPPROTO_SCTP in
      if fd <? 0 then bind_loop ai_next fd
      else
        setsockopt o fd SOL_SOCKET SO_REUSEADDR ;;
        let* b := bind_addr o fd (ai_addr a) in
        if b =? 0 then ret (ai, fd)
        else close o fd ;; bind_loop ai_next fd
  end.

Definition listen_hints : hints :=
  {| h_flags := AI_PASSIVE; h_family := AF_UNSPEC; h_socktype := SOCK_STREAM |}.

Definition sctp_listen (port : text) : M Z :=
  let* (n, ai_list) := getaddrinfo o None port listen_hints in
  if negb (n =? 0) then
    fprintf_stderr (progname ++ txt ": getaddrinfo failed: "
                      ++ gai_strerror o n ++ [LF]) ;;
    ret (-1)
  else
    let* (ai, fd) := bind_loop ai_list 0 in
    match ai with
    | [] =>
        fprintf_stderr (progname ++ txt ": bind failed for port "
                          ++ port ++ [LF]) ;;
        ret (-1)
    | _ :: _ =>
        let* l := listen o fd 42 in
        if l <? 0 then
          let* e := get_errno in
          fprintf_stderr (progname ++ txt ": listen failed: "
                            ++ strerror o e ++ [LF]) ;;
          close o fd ;;
          ret (-1)
        else ret fd
    end.

Definition sctp_accept (listen : Z) : M Z :=
  let* (fd, ss) := accept o listen in
  if fd =? -1 then
    let* e := get_errno in
    syslog LOG_ERR (txt "accept failed: " ++ strerror o e) ;;
    ret (-1)
  else
    let* (n, (host, serv)) := getnameinfo o ss NI_NUMERICHOST in
    (if negb (n =? 0)
     then syslog LOG_ERR (txt "getnameinfo failed: " ++ gai_strerror o n)
     else syslog LOG_DEBUG (txt "connection from " ++ host
                              ++ ":"%char :: serv)) ;;
    ret fd.

Definition sctp_close (fd : Z) : M Z := close o fd.

Definition DAYTIME_STREAM_LOCAL : Z := 0.
Definition DAYTIME_STREAM_GMT : Z := 1.

Definition sctp_daytime (listenfd : Z) : M unit :=
  let* message := local_array o 128 in
  let* client := sctp_accept listenfd in
  if client =? -1 then ret tt
  else
    let* message := daytime message 128 1 in
    let* r :=
      sctp_sendmsg o client message (strlen message) DAYTIME_STREAM_LOCAL in
    let n := r mod SIZE_MOD in
    (if negb (n =? strlen message)
     then syslog LOG_ERR (txt "sctp_sendmsg failed (daytime_stream_local)")
     else ret tt) ;;
    let* message := daytime message 128 0 in
    let* r :=
      sctp_sendmsg o client message (strlen message) DAYTIME_STREAM_GMT in
    let n := r mod SIZE_MOD in
    (if negb (n =? strlen message)
     then syslog LOG_ERR (txt "sctp_sendmsg failed (daytime_stream_gmt)")
     else ret tt) ;;
    sctp_close client ;;
    ret tt.

(** [while (tfd != -1) sctp_daytime(tfd);] with a bound on the number of
    sessions the model follows. *)
Fixpoint serve (fuel : nat) (tfd : Z) : M unit :=
  if tfd =? -1 then ret tt
  else match fuel with
       | O => running
       | S fuel' => sctp_daytime tfd ;; serve fuel' tfd
       end.

Definition main (fuel : nat) (argv : list text) : M Z :=
  if negb (Z.of_nat (length argv) =? 2) then
    fprintf_stderr (txt "usage: " ++ progname ++ txt " port" ++ [LF]) ;;
    exit EXIT_FAILURE
  else
    openlog progname ;;
    let* tfd := sctp_listen (nth 1 argv []) in
    serve fuel tfd ;;
    sctp_close tfd ;;
    closelog ;;
    ret EXIT_SUCCESS.

End Server.

End Daytimed.

(** ** daytime.c: the client *)

Module Daytime.

Section Client.

Variable o : os.

Definition progname : text := txt "daytime".

(** The loop of [sctp_connect] over the address list, as [bind_loop]. *)
Fixpoint connect_loop (ai : list addrinfo) (fd : Z)
  : M (list addrinfo * Z) :=
  match ai with
  | [] => ret ([], fd)
  | a :: ai_next =>
      let* fd := socket o (ai_family a) (ai_socktype a) IPPROTO_SCTP in
      if fd <? 0 then connect_loop ai_next fd
      else
        let* c := connect o fd (ai_addr a) in
        if c =? 0 then ret (ai, fd)
        else close o fd ;; connect_loop ai_next fd
  end.

Definition connect_hints : hints :=
  {| h_flags := 0; h_family := AF_UNSPEC; h_socktype := SOCK_STREAM |}.

Definition sctp_connect (host port : text) : M Z :=
  let* (n, ai_list) := getaddrinfo o (Some host) port connect_hints in
  if negb (n =? 0) then
    fprintf_stderr (progname ++ txt ": getaddrinfo: "
                      ++ gai_strerror o n ++ [LF]) ;;
    exit EXIT_FAILURE
  else
    let* (ai, fd) := connect_loop ai_list 0 in
    match ai with
    | [] =>
        fprintf_stderr (progname ++ txt ": socket or connect: failed for "
                          ++ host ++ txt " port " ++ port ++ [LF]) ;;
        exit EXIT_FAILURE
    | _ :: _ => ret fd
    end.

Definition sctp_close (fd : Z) : M Z := close o fd.

Definition DAYTIME_STREAM_LOCAL : Z := 0.
Definition DAYTIME_STREAM_GMT : Z := 1.

(** The body of the receive loop for a message of [n > 0] bytes: the
    message buffer afterwards and what is printed. *)
Definition terminate (message : list ascii) (n : Z) : list ascii :=
  let message := <[Z.to_nat n := NUL]> message in
  match strstr message CRLF with
  | Some p => <[p := NUL]> message
  | None => message
  end.

Definition report (host serv : text) (message : list ascii)
    (sinfo_stream : Z) : M unit :=
  if sinfo_stream =? DAYTIME_STREAM_LOCAL then
    printf (host ++ ":"%char :: serv ++ TAB :: " "%char :: c_str message
              ++ txt " (local time)" ++ [LF])
  else if sinfo_stream =? DAYTIME_STREAM_GMT then
    printf (host ++ ":"%char :: serv ++ TAB :: " "%char :: c_str message
              ++ txt " (gmt time)" ++ [LF])
  else
    fprintf_stderr (progname ++ txt ": ignoring message from unknown stream "
                      ++ dec_of_Z sinfo_stream ++ [LF]).

(** [while ((n = sctp_recvmsg(...)) > 0) { ... }] with a bound on the
    number of messages the model follows. *)
Fixpoint receive (fuel : nat) (fd : Z) (host serv : text)
    (message : list ascii) : M unit :=
  match fuel with
  | O => running
  | S fuel' =>
      let* (n, message, sinfo_stream) :=
        sctp_recvmsg o fd message (128 - 1) in
      if n >? 0 then
        let message := terminate message n in
        report host serv message sinfo_stream ;;
        receive fuel' fd host serv message
      else ret tt
  end.

Definition daytime (fuel : nat) (fd : Z) : M unit :=
  let* message := local_array o 128 in
  let* (n, peer) := getpeername o fd in
  if negb (n =? 0) then
    let* e := get_errno in
    fprintf_stderr (progname ++ txt ": getpeername: "
                      ++ strerror o e ++ [LF]) ;;
    ret tt
  else
    let* (n, (host, serv)) :=
      getnameinfo o peer (Z.lor NI_NUMERICHOST NI_NUMERICSERV) in
    if negb (n =? 0) then
      fprintf_stderr (progname ++ txt ": getnameinfo: "
                        ++ gai_strerror o n ++ [LF]) ;;
      ret tt
    else
      let* s := setsockopt o fd SOL_SCTP SCTP_EVENTS in
      (if negb (0 =? s) then
         let* e := get_errno in
         fprintf_stderr (progname ++ txt ": setsockopt failed: "
                           ++ strerror o e ++ [LF])
       else ret tt) ;;
      receive fuel fd host serv message.

Definition main (fuel : nat) (argv : list text) : M Z :=
  if negb (Z.of_nat (length argv) =? 3) then
    fprintf_stderr (txt "usage: " ++ progname ++ txt " host port" ++ [LF]) ;;
    ret EXIT_FAILURE
  else
    let* fd := sctp_connect (nth 1 argv []) (nth 2 argv []) in
    daytime fuel fd ;;
    sctp_close fd ;;
    ret EXIT_SUCCESS.

End Client.

End Daytime.

(** ** Concrete environments *)

Module Scenario.

Definition a_tm : tm :=
  {| tm_sec := 5; tm_min := 7; tm_hour := 23; tm_mday := 2; tm_mon := 10;
     tm_year := 126 |}.

Definition an_addr : addrinfo :=
  {| ai_family := 2; ai_socktype := SOCK_STREAM; ai_addr := txt "127.0.0.1" |}.

Definition eai_text (n : Z) : text :=
  if n =? 0 then txt "Success" else txt "Name or service not known".

Definition errno_text (e : Z) : text :=
  if e =? 0 then txt "Success" else txt "Connection refused".

(** An environment built from the answers that matter to a scenario: the
    resolver's answer, the results of socket, bind/connect, listen, accept
    and the peer lookups, the two time breakdowns, the result of every
    send and the incoming messages. *)
Definition make_os (gai : Z * list addrinfo) (sock reach lis : Z)
    (acc : nat -> Z) (peername nameinfo : Z) (lt gt : option tm)
    (sent : text -> Z) (incoming : nat -> option (text * Z)) : os :=
  {| os_getaddrinfo := fun _ _ _ _ => gai;
     os_gai_strerror := eai_text;
     os_strerror := errno_text;
     os_errno := fun _ => 111;
     os_socket := fun _ _ _ _ => sock;
     os_setsockopt := fun _ _ _ _ => 0;
     os_bind := fun _ _ _ => reach;
     os_listen := fun _ _ _ => lis;
     os_connect := fun _ _ _ => reach;
     os_accept := fun t _ => (acc t, txt "peer");
     os_getpeername := fun _ _ => (peername, txt "peer");
     os_getnameinfo := fun _ _ _ => (nameinfo, (txt "192.0.2.7", txt "13"));
     os_sendmsg := fun _ _ payload _ => sent payload;
     os_recvmsg := fun t _ => incoming t;
     os_close := fun _ _ => 0;
     os_time := fun _ => 1793660825;
     os_localtime := fun _ => lt;
     os_gmtime := fun _ => gt;
     os_stack := fun _ => [] |}.

Definition full_send (payload : text) : Z := Z.of_nat (length payload).

Definition no_message (t : nat) : option (text * Z) := None.

(** The resolver knows neither the host nor the service. *)
Definition os_unresolved : os :=
  make_os (-2, []) 3 0 0 (fun _ => 4) 0 0 (Some a_tm) (Some a_tm)
    full_send no_message.

(** Resolution works, but no candidate can be bound or connected. *)
Definition os_unreachable : os :=
  make_os (0, [an_addr; an_addr]) 3 (-1) 0 (fun _ => 4) 0 0 (Some a_tm)
    (Some a_tm) full_send no_message.

(** getpeername fails on the connected socket. *)
Definition os_nopeer : os :=
  make_os (0, [an_addr]) 3 0 0 (fun _ => 4) (-1) 0 (Some a_tm) (Some a_tm)
    full_send (fun _ => Some (txt "2026-11-02 23:07:05" ++ CRLF, 0)).

(** Every accept fails. *)
Definition os_accept_fails : os :=
  make_os (0, [an_addr]) 3 0 0 (fun _ => -1) 0 0 (Some a_tm) (Some a_tm)
    full_send no_message.

(** A healthy server host; sends are cut short to [n] bytes. *)
Definition os_serving (short : Z) : os :=
  make_os (0, [an_addr]) 3 0 0 (fun _ => 4) 0 0 (Some a_tm) (Some a_tm)
    (fun _ => short) no_message.

(** Neither time breakdown works. *)
Definition os_noclock : os :=
  make_os (0, [an_addr]) 3 0 0 (fun _ => 4) 0 0 None None
    full_send no_message.

(** A client host on which every receive delivers [data] on [stream]. *)
Definition os_receiving (data : text) (stream : Z) : os :=
  make_os (0, [an_addr]) 3 0 0 (fun _ => 4) 0 0 (Some a_tm) (Some a_tm)
    full_send (fun _ => Some (data, stream)).

(** Resolution works, but no socket can be created. *)
Definition os_no_socket : os :=
  make_os (0, [an_addr; an_addr]) (-1) 0 0 (fun _ => 4) 0 0 (Some a_tm)
    (Some a_tm) full_send no_message.




(** The five bytes "ab", NUL, "cd". *)
Definition ab_nul_cd : text := txt "ab" ++ NUL :: txt "cd".

End Scenario.

Import Scenario.

(** ** Vocabulary of the statements *)

Module Obs.

(** Number of [close] calls on [fd] in a trace. *)
Fixpoint closes (fd : Z) (evs : list event) : nat :=
  match evs with
  | [] => 0%nat
  | Close fd' :: rest =>
      if fd' =? fd then S (closes fd rest) else closes fd rest
  | _ :: rest => closes fd rest
  end.

(** The messages sent in a trace: descriptor, payload and stream. *)
Fixpoint sends (evs : list event) : list (Z * text * Z) :=
  match evs with
  | [] => []
  | Sendmsg fd payload stream _ :: rest => (fd, payload, stream) :: sends rest
  | _ :: rest => sends rest
  end.

(** What a process wrote to the error channel and to standard output. *)
Fixpoint stderr_of (evs : list event) : list text :=
  match evs with
  | [] => []
  | Stderr s :: rest => s :: stderr_of rest
  | _ :: rest => stderr_of rest
  end.

Fixpoint stdout_of (evs : list event) : list text :=
  match evs with
  | [] => []
  | Stdout s :: rest => s :: stdout_of rest
  | _ :: rest => stdout_of rest
  end.

(** Calls that belong to the receive phase proper: enabling the stream
    metadata and receiving. *)
Definition is_receive_call (e : event) : bool :=
  match e with
  | Setsockopt _ _ _ _ => true
  | Recvmsg _ _ _ => true
  | _ => false
  end.

(** [needle] occurs in [hay]. *)
Definition contains (needle hay : text) : bool :=
  match find_from needle hay 0 with
  | Some _ => true
  | None => false
  end.

(** The text before the first "\r\n" of [s]; all of [s] when there is
    none. *)
Fixpoint until_crlf (s : text) : text :=
  match s with
  | [] => []
  | c :: rest =>
      match rest with
      | [] => [c]
      | d :: _ =>
          if Ascii.eqb c CR && Ascii.eqb d LF then []
          else c :: until_crlf rest
      end
  end.

(** "\r\n" occurs in [s]. *)
Definition has_crlf (s : text) : Prop :=
  exists pre post, s = pre ++ CRLF ++ post.

(** What the client is to show for a message with text [body] that came
    on [stream]: a labelled line on standard output for streams 0 and 1,
    a diagnostic on the error channel for any other stream. *)
Definition shown (host serv body : text) (stream : Z) : event :=
  if stream =? 0 then
    Stdout (host ++ txt ":" ++ serv ++ [TAB] ++ txt " " ++ body
              ++ txt " (local time)" ++ [LF])
  else if stream =? 1 then
    Stdout (host ++ txt ":" ++ serv ++ [TAB] ++ txt " " ++ body
              ++ txt " (gmt time)" ++ [LF])
  else
    Stderr (txt "daytime: ignoring message from unknown stream "
              ++ dec_of_Z stream ++ [LF]).





(** The fields of [struct tm] are of type [int]. *)
Definition is_int (z : Z) : Prop := - 2 ^ 31 <= z < 2 ^ 31.

Definition tm_is_int (t : tm) : Prop :=
  is_int (tm_sec t) /\ is_int (tm_min t) /\ is_int (tm_hour t) /\
  is_int (tm_mday t) /\ is_int (tm_mon t) /\ is_int (tm_year t).

(** A stretch of trace without sends and without closes. *)
Definition quiet (evs : list event) : Prop :=
  sends evs = [] /\ forall fd, closes fd evs = 0%nat.

(** The log entry for a send whose result, stored in a [size_t], differs
    from the length of the message. *)
Definition mismatch_log (r : Z) (message : list ascii) (complaint : text)
  : list event :=
  if r mod SIZE_MOD =? strlen message then []
  else [Syslog LOG_ERR complaint].

(** [b] is what the server's formatter leaves in [buffer] for some clock
    reading: the empty string after a failed breakdown, the result of
    strftime otherwise. *)
Definition formatted (o : os) (size local : Z) (buffer b : list ascii)
  : Prop :=
  exists ticks,
    match (if local =? 0 then os_gmtime o ticks else os_localtime o ticks) with
    | None => b = <[0%nat := NUL]> buffer
    | Some t => b = snd (strftime buffer size Daytimed.DAYTIME_FORMAT t)
    end.

End Obs.

Import Obs.

(** ** Vocabulary for descriptors and attempts *)

Module Ledger.

(** Descriptors that [socket] handed out (the programs take a result as a
    descriptor when it is not negative), in order. *)
Fixpoint opened (evs : list event) : list Z :=
  match evs with
  | [] => []
  | Socket _ _ _ r :: rest => if r <? 0 then opened rest else r :: opened rest
  | _ :: rest => opened rest
  end.

(** Descriptors passed to [close], in order. *)
Fixpoint closed (evs : list event) : list Z :=
  match evs with
  | [] => []
  | Close fd :: rest => fd :: closed rest
  | _ :: rest => closed rest
  end.

(** Descriptors that [accept] handed out (the server takes every result
    but -1 as a descriptor), in order. *)
Fixpoint accepted (evs : list event) : list Z :=
  match evs with
  | [] => []
  | Accept _ r :: rest => if r =? -1 then accepted rest else r :: accepted rest
  | _ :: rest => accepted rest
  end.

(** Number of [accept] calls. *)
Fixpoint accept_calls (evs : list event) : nat :=
  match evs with
  | [] => 0%nat
  | Accept _ _ :: rest => S (accept_calls rest)
  | _ :: rest => accept_calls rest
  end.

(** The arguments of the [socket] calls, in order. *)
Fixpoint attempts (evs : list event) : list (Z * Z * Z) :=
  match evs with
  | [] => []
  | Socket d t pr _ :: rest => (d, t, pr) :: attempts rest
  | _ :: rest => attempts rest
  end.

(** The results of the [connect] and of the [bind] calls, in order. *)
Fixpoint connect_results (evs : list event) : list Z :=
  match evs with
  | [] => []
  | Connect _ _ r :: rest => r :: connect_results rest
  | _ :: rest => connect_results rest
  end.

Fixpoint bind_results (evs : list event) : list Z :=
  match evs with
  | [] => []
  | Bind _ _ r :: rest => r :: bind_results rest
  | _ :: rest => bind_results rest
  end.

(** The descriptors on which SO_REUSEADDR was requested, in order. *)
Fixpoint reuse_requests (evs : list event) : list Z :=
  match evs with
  | [] => []
  | Setsockopt fd level optname _ :: rest =>
      if (level =? SOL_SOCKET) && (optname =? SO_REUSEADDR)
      then fd :: reuse_requests rest else reuse_requests rest
  | _ :: rest => reuse_requests rest
  end.

(** How a candidate address is turned into a [socket] call. *)
Definition sctp_socket_of (a : addrinfo) : Z * Z * Z :=
  (ai_family a, ai_socktype a, IPPROTO_SCTP).

(** Events other than output on the two standard channels. *)
Definition silent (evs : list event) : Prop :=
  stdout_of evs = [] /\ stderr_of evs = [].

(** A stretch of trace that consists of log entries only. *)
Definition only_syslog (evs : list event) : Prop :=
  Forall (fun e => exists priority s, e = Syslog priority s) evs.

(** What one round of the client's receive loop does for the message
    [m] (bytes and stream) it is handed: the receive call and the line or
    diagnostic for the text cut at "\r\n". *)
Definition round_events (fd : Z) (host serv : text) (m : text * Z)
  : list event :=
  [Recvmsg fd 127 (Z.of_nat (length (take 127 (fst m))));
   shown host serv (c_str (until_crlf (take 127 (fst m))))
     (snd m mod U16_MOD)].

(** Every candidate of [ai] fails when the client's loop, whose next call
    is call number [t], reaches it: its socket call fails, or its connect
    fails (the descriptor is then closed, a third call). *)
Fixpoint connect_candidates_fail (o : os) (ai : list addrinfo) (t : nat)
  : bool :=
  match ai with
  | [] => true
  | a :: rest =>
      let s := os_socket o t (ai_family a) (ai_socktype a) IPPROTO_SCTP in
      if s <? 0 then connect_candidates_fail o rest (S t)
      else negb (os_connect o (S t) s (ai_addr a) =? 0)
           && connect_candidates_fail o rest (S (S (S t)))
  end.

(** The same for the server's loop, where the socket option is set
    between socket and bind. *)
Fixpoint bind_candidates_fail (o : os) (ai : list addrinfo) (t : nat)
  : bool :=
  match ai with
  | [] => true
  | a :: rest =>
      let s := os_socket o t (ai_family a) (ai_socktype a) IPPROTO_SCTP in
      if s <? 0 then bind_candidates_fail o rest (S t)
      else negb (os_bind o (S (S t)) s (ai_addr a) =? 0)
           && bind_candidates_fail o rest (S (S (S (S t))))
  end.

(** The calls made for a candidate that fails: a failed socket call
    alone, or a socket, the failed connect on its descriptor and the
    close of the descriptor. *)
Definition failed_connect_attempt (a : addrinfo) (block : list event)
  : Prop :=
  (exists s, s < 0 /\
     block = [Socket (ai_family a) (ai_socktype a) IPPROTO_SCTP s]) \/
  (exists s c, 0 <= s /\ c <> 0 /\
     block = [Socket (ai_family a) (ai_socktype a) IPPROTO_SCTP s;
              Connect s (ai_addr a) c; Close s]).

Definition failed_bind_attempt (a : addrinfo) (block : list event) : Prop :=
  (exists s, s < 0 /\
     block = [Socket (ai_family a) (ai_socktype a) IPPROTO_SCTP s]) \/
  (exists s q b, 0 <= s /\ b <> 0 /\
     block = [Socket (ai_family a) (ai_socktype a) IPPROTO_SCTP s;
              Setsockopt s SOL_SOCKET SO_REUSEADDR q;
              Bind s (ai_addr a) b; Close s]).

(** The log entry of the server's formatter for a breakdown [bd]. *)
Definition fmt_log (bd : option tm) : list event :=
  match bd with
  | None => [Syslog LOG_ERR (txt "localtime or gmtime failed")]
  | Some _ => []
  end.

(** [b] is what the server's formatter leaves in [buffer] for the clock
    reading [ticks]. *)
Definition formatted_at (o : os) (size local : Z) (buffer b : list ascii)
    (ticks : Z) : Prop :=
  match (if local =? 0 then os_gmtime o ticks else os_localtime o ticks) with
  | None => b = <[0%nat := NUL]> buffer
  | Some t => b = snd (strftime buffer size Daytimed.DAYTIME_FORMAT t)
  end.

(** The log entry of the server for the peer at address [ss], looked up
    by call number [t]. *)
Definition peer_log_entry (o : os) (t : nat) (ss : sockaddr) : event :=
  if fst (os_getnameinfo o t ss NI_NUMERICHOST) =? 0
  then Syslog LOG_DEBUG
         (txt "connection from "
            ++ fst (snd (os_getnameinfo o t ss NI_NUMERICHOST))
            ++ txt ":" ++ snd (snd (os_getnameinfo o t ss NI_NUMERICHOST)))
  else Syslog LOG_ERR
         (txt "getnameinfo failed: "
            ++ os_gai_strerror o
                 (fst (os_getnameinfo o t ss NI_NUMERICHOST))).



(** What the trace of the client's receive loop may hold for a peer
    [host], [serv] on descriptor [fd]: receive calls with the length 127
    and a result of at most 127, and lines or diagnostics for texts of at
    most 127 bytes. *)
Definition bounded_receive_event (fd : Z) (host serv : text) (e : event)
  : Prop :=
  (exists n, e = Recvmsg fd 127 n /\ n <= 127) \/
  (exists body stream,
     e = shown host serv body stream /\ (length body <= 127)%nat).

End Ledger.

Import Ledger.

(** ** Properties *)

Lemma stderr_of_app (a b : list event) :
  stderr_of (a ++ b) = stderr_of a ++ stderr_of b.
Proof.
  induction a as [| e a IH]; [reflexivity |].
  destruct e; cbn; now rewrite ?IH.
Qed.

Lemma stdout_of_app (a b : list event) :
  stdout_of (a ++ b) = stdout_of a ++ stdout_of b.
Proof.
  induction a as [| e a IH]; [reflexivity |].
  destruct e; cbn; now rewrite ?IH.
Qed.

Lemma closes_app (fd : Z) (a b : list event) :
  closes fd (a ++ b) = (closes fd a + closes fd b)%nat.
Proof.
  induction a as [| e a IH]; [reflexivity |].
  destruct e; cbn; try exact IH.
  destruct (_ =? _); cbn; now rewrite IH.
Qed.

Lemma sends_app (a b : list event) :
  sends (a ++ b) = sends a ++ sends b.
Proof.
  induction a as [| e a IH]; [reflexivity |].
  destruct e; cbn; now rewrite ?IH.
Qed.

(** Running a sequence: the first computation decides. *)
Lemma bind_ret {A B} (m : M A) (k : A -> M B) (p p' : proc) (a : A) :
  m p = (Ret a, p') -> Sys.bind m k p = k a p'.
Proof. intros H. unfold Sys.bind. now rewrite H. Qed.

Lemma bind_exit {A B} (m : M A) (k : A -> M B) (p p' : proc) (st : Z) :
  m p = (Exit st, p') -> Sys.bind m k p = (Exit st, p').
Proof. intros H. unfold Sys.bind. now rewrite H. Qed.

(** Run the first call of a sequence when it is a primitive. *)
Ltac run_call := erewrite bind_ret by reflexivity.

(** *** C2: a failed peer lookup ends the receive phase *)

(** C2 (as amended). When getpeername or getnameinfo fails, the client's
    receive phase prints one diagnostic on the error channel and returns
    at once: nothing is printed on standard output, the stream metadata is
    not enabled and no message is received. *)
Theorem lookup_failure_ends_receive_phase (o : os) (fuel : nat) (fd : Z)
    (p : proc) :
  fst (os_getpeername o (tick p) fd) <> 0 \/
  fst (os_getnameinfo o (S (tick p)) (snd (os_getpeername o (tick p) fd))
         (Z.lor NI_NUMERICHOST NI_NUMERICSERV)) <> 0 ->
  exists diag,
    fst (Daytime.daytime o fuel fd p) = Ret tt /\
    trace (snd (Daytime.daytime o fuel fd p)) =
      trace p ++ [Getpeername fd (fst (os_getpeername o (tick p) fd));
                  Stderr diag].
Proof.
  intros H.
  unfold Daytime.daytime, local_array, getpeername, getnameinfo, syscall, ask,
    get_errno, fprintf_stderr, emit, Sys.bind, ret.
  cbn.
  destruct (os_getpeername o (tick p) fd) as [n peer] eqn:Hpeer.
  cbn in *.
  destruct (n =? 0) eqn:Hn; cbn.
  - apply Z.eqb_eq in Hn. subst n.
    destruct H as [H | H]; [congruence |].
    destruct (os_getnameinfo o (S (tick p)) peer _) as [g [host serv]] eqn:Hg.
    cbn in *.
    destruct (g =? 0) eqn:Hg0; cbn.
    + apply Z.eqb_eq in Hg0. congruence.
    + eexists. split; [reflexivity |].
      now rewrite <- app_assoc.
  - eexists. split; [reflexivity |].
    now rewrite <- app_assoc.
Qed.

Lemma lookup_failure_ends_receive_phase_witness :
  exists diag,
    fst (Daytime.daytime os_nopeer 5 3 proc0) = Ret tt /\
    trace (snd (Daytime.daytime os_nopeer 5 3 proc0)) =
      trace proc0 ++ [Getpeername 3 (fst (os_getpeername os_nopeer 0 3));
                      Stderr diag].
Proof.
  apply (lookup_failure_ends_receive_phase os_nopeer 5 3 proc0).
  left. vm_compute. discriminate.
Defined.

(** C2 (as stated) fails: on a host where getpeername fails, the receive
    phase makes no setsockopt and no receive call at all. *)
Lemma lookup_failure_is_not_soft :
  fst (os_getpeername os_nopeer 0 3) <> 0 /\
  ~ (exists e, In e (trace (snd (Daytime.daytime os_nopeer 5 3 proc0))) /\
               is_receive_call e = true).
Proof.
  split; [vm_compute; discriminate |].
  intros [e [Hin He]].
  vm_compute in Hin.
  destruct Hin as [<- | [<- | []]]; discriminate He.
Qed.

(** *** C1: exit status of the server after a failed listen *)

(** C1 (the code at the failing inputs). When the resolver fails, and when
    no candidate can be bound, [sctp_listen] reports the failure on the
    error channel and [main] then leaves the loop at once, closes the
    descriptor -1 and returns [EXIT_SUCCESS]. *)
Theorem listen_failure_exit_status :
  Daytimed.main os_unresolved 1 [txt "daytimed"; txt "13"] proc0 =
    (Ret EXIT_SUCCESS,
     {| tick := 2; errno := 0;
        trace := [Openlog (txt "daytimed");
                  Stderr (txt "daytimed: getaddrinfo failed: Name or service not known" ++ [LF]);
                  Close (-1);
                  Closelog] |}) /\
  Daytimed.main os_unreachable 1 [txt "daytimed"; txt "13"] proc0 =
    (Ret EXIT_SUCCESS,
     {| tick := 10; errno := 111;
        trace := [Openlog (txt "daytimed");
                  Socket 2 1 132 3; Setsockopt 3 1 2 0;
                  Bind 3 (txt "127.0.0.1") (-1); Close 3;
                  Socket 2 1 132 3; Setsockopt 3 1 2 0;
                  Bind 3 (txt "127.0.0.1") (-1); Close 3;
                  Stderr (txt "daytimed: bind failed for port 13" ++ [LF]);
                  Close (-1);
                  Closelog] |}).
Proof. split; vm_compute; reflexivity. Qed.

(** *** C3: failures of the client's connector *)

Lemma starts_with_app (needle rest : text) :
  starts_with needle (needle ++ rest) = true.
Proof.
  induction needle as [| c needle IH]; [reflexivity |].
  cbn. rewrite Ascii.eqb_refl. exact IH.
Qed.

Lemma find_from_eq (needle hay : text) (i : nat) :
  find_from needle hay i =
    if starts_with needle hay then Some i
    else match hay with
         | [] => None
         | _ :: hay' => find_from needle hay' (S i)
         end.
Proof. destruct hay; reflexivity. Qed.

Lemma find_from_occurrence (needle pre post : text) (i : nat) :
  exists k, find_from needle (pre ++ needle ++ post) i = Some k.
Proof.
  revert i. induction pre as [| c pre IH]; intros i.
  - cbn [app]. exists i.
    now rewrite find_from_eq, starts_with_app.
  - rewrite find_from_eq. cbn [app].
    destruct (starts_with needle (c :: pre ++ needle ++ post)).
    + now exists i.
    + apply IH.
Qed.

(** [contains] misses no occurrence. *)
Lemma contains_occurrence (needle pre post : text) :
  contains needle (pre ++ needle ++ post) = true.
Proof.
  unfold contains.
  destruct (find_from_occurrence needle pre post 0) as [k ->].
  reflexivity.
Qed.

(** When every candidate fails as the loop reaches it, the loop runs off
    the end of the list, and writes nothing on the way. *)
Lemma connect_loop_all_fail (o : os) (ai : list addrinfo) :
  forall fd p,
    connect_candidates_fail o ai (tick p) = true ->
    exists fd' p' evs,
      Daytime.connect_loop o ai fd p = (Ret ([], fd'), p') /\
      trace p' = trace p ++ evs /\
      stderr_of evs = [] /\ stdout_of evs = [].
Proof.
  induction ai as [| a ai IH]; intros fd p Hfail.
  - exists fd, p, []. cbn. now rewrite app_nil_r.
  - cbn [Daytime.connect_loop connect_candidates_fail] in *.
    run_call. cbn [id].
    set (s := os_socket o (tick p) (ai_family a) (ai_socktype a) IPPROTO_SCTP)
      in *.
    destruct (s <? 0) eqn:Hs.
    + match goal with
      | |- context [Daytime.connect_loop o ai s ?q] =>
          destruct (IH s q Hfail) as (fd' & p' & evs & Hrun & Htr & He & Ho)
      end.
      exists fd', p',
        (Socket (ai_family a) (ai_socktype a) IPPROTO_SCTP s :: evs).
      split; [exact Hrun |].
      rewrite Htr. cbn. rewrite <- app_assoc. auto.
    + apply andb_prop in Hfail. destruct Hfail as [Hc Hrest].
      run_call. cbn [id tick].
      apply negb_true_iff in Hc. rewrite Hc.
      run_call.
      match goal with
      | |- context [Daytime.connect_loop o ai s ?q] =>
          destruct (IH s q Hrest) as (fd' & p' & evs & Hrun & Htr & He & Ho)
      end.
      exists fd', p',
        (Socket (ai_family a) (ai_socktype a) IPPROTO_SCTP s
           :: Connect s (ai_addr a) (os_connect o (S (tick p)) s (ai_addr a))
           :: Close s :: evs).
      split; [exact Hrun |].
      rewrite Htr. cbn. rewrite <- !app_assoc. auto.
Qed.

Lemma sctp_connect_fails (o : os) (host port : text) (p : proc) :
  fst (os_getaddrinfo o (tick p) (Some host) port Daytime.connect_hints) <> 0
  \/ connect_candidates_fail o
       (snd (os_getaddrinfo o (tick p) (Some host) port
               Daytime.connect_hints))
       (S (tick p)) = true ->
  exists p' evs,
    Daytime.sctp_connect o host port p = (Exit EXIT_FAILURE, p') /\
    trace p' = trace p ++ evs /\
    stdout_of evs = [] /\
    stderr_of evs =
      [if fst (os_getaddrinfo o (tick p) (Some host) port
                 Daytime.connect_hints) =? 0
       then txt "daytime: socket or connect: failed for " ++ host
              ++ txt " port " ++ port ++ [LF]
       else txt "daytime: getaddrinfo: "
              ++ os_gai_strerror o
                   (fst (os_getaddrinfo o (tick p) (Some host) port
                           Daytime.connect_hints)) ++ [LF]].
Proof.
  intros H. unfold Daytime.sctp_connect. run_call.
  destruct (os_getaddrinfo o (tick p) (Some host) port Daytime.connect_hints)
    as [n ai_list] eqn:Hgai.
  cbn [fst snd] in *.
  destruct (n =? 0) eqn:Hn; cbn [negb].
  - apply Z.eqb_eq in Hn. destruct H as [H | H]; [congruence |].
    match goal with
    | |- context [Sys.bind (Daytime.connect_loop o ai_list 0) _ ?q] =>
        destruct (connect_loop_all_fail o ai_list 0 q H)
          as (fd' & p' & evs & Hloop & Htr & He & Ho)
    end.
    erewrite bind_ret by exact Hloop.
    cbv iota beta. run_call.
    eexists _, (evs ++ [Stderr _]).
    split; [reflexivity |].
    cbn [trace] in *. rewrite Htr, <- app_assoc.
    split; [reflexivity |].
    rewrite stdout_of_app, stderr_of_app, He, Ho. split; reflexivity.
  - run_call.
    eexists _, [Stderr _].
    split; [reflexivity |]. split; [reflexivity |]. split; reflexivity.
Qed.

(** C3 (as amended). For every host and port, if the client's name
    resolution fails, or every resolved candidate fails when the loop
    reaches it (its socket cannot be created or its connect fails), the
    client leaves with the non-zero status [EXIT_FAILURE], has printed
    nothing on standard output and exactly one message on the error
    channel.  After a failed resolution that message is the program name
    and the resolver's error text; after the candidates are exhausted it
    is the program name and the original host and port. *)
Theorem connect_failure_is_fatal (o : os) (fuel : nat)
    (prog host port : text) (p : proc) :
  fst (os_getaddrinfo o (tick p) (Some host) port Daytime.connect_hints) <> 0
  \/ connect_candidates_fail o
       (snd (os_getaddrinfo o (tick p) (Some host) port
               Daytime.connect_hints))
       (S (tick p)) = true ->
  exists evs,
    fst (Daytime.main o fuel [prog; host; port] p) = Exit EXIT_FAILURE /\
    EXIT_FAILURE <> 0 /\
    trace (snd (Daytime.main o fuel [prog; host; port] p)) = trace p ++ evs /\
    stdout_of evs = [] /\
    stderr_of evs =
      [if fst (os_getaddrinfo o (tick p) (Some host) port
                 Daytime.connect_hints) =? 0
       then txt "daytime: socket or connect: failed for " ++ host
              ++ txt " port " ++ port ++ [LF]
       else txt "daytime: getaddrinfo: "
              ++ os_gai_strerror o
                   (fst (os_getaddrinfo o (tick p) (Some host) port
                           Daytime.connect_hints)) ++ [LF]].
Proof.
  intros H.
  destruct (sctp_connect_fails o host port p H) as (p' & evs & Hc & Htr & Hrest).
  exists evs.
  unfold Daytime.main.
  change (negb (Z.of_nat (length [prog; host; port]) =? 3)) with false.
  cbn [nth].
  erewrite bind_exit by exact Hc.
  cbn [fst snd]. split; [reflexivity |]. split; [discriminate |].
  split; assumption.
Qed.

Lemma connect_failure_is_fatal_witness :
  (exists evs,
    fst (Daytime.main os_no_socket 5
           [txt "daytime"; txt "example.invalid"; txt "13"] proc0)
      = Exit EXIT_FAILURE /\
    EXIT_FAILURE <> 0 /\
    trace (snd (Daytime.main os_no_socket 5
                  [txt "daytime"; txt "example.invalid"; txt "13"] proc0))
      = trace proc0 ++ evs /\
    stdout_of evs = [] /\
    stderr_of evs =
      [txt "daytime: socket or connect: failed for example.invalid port 13"
         ++ [LF]]) /\
  (exists evs,
    fst (Daytime.main os_unreachable 5
           [txt "daytime"; txt "example.invalid"; txt "13"] proc0)
      = Exit EXIT_FAILURE /\
    EXIT_FAILURE <> 0 /\
    trace (snd (Daytime.main os_unreachable 5
                  [txt "daytime"; txt "example.invalid"; txt "13"] proc0))
      = trace proc0 ++ evs /\
    stdout_of evs = [] /\
    stderr_of evs =
      [txt "daytime: socket or connect: failed for example.invalid port 13"
         ++ [LF]]).
Proof.
  split.
  - apply (connect_failure_is_fatal os_no_socket 5 (txt "daytime")
             (txt "example.invalid") (txt "13") proc0).
    right. reflexivity.
  - apply (connect_failure_is_fatal os_unreachable 5 (txt "daytime")
             (txt "example.invalid") (txt "13") proc0).
    right. reflexivity.
Defined.

(** C3 (as stated) fails: when the resolver fails for the host
    example.invalid and port 13, the only message on the error channel is
    the resolver's error text, which names neither the host nor the
    port. *)
Lemma resolution_failure_message_omits_host_and_port :
  fst (os_getaddrinfo os_unresolved 0 (Some (txt "example.invalid"))
         (txt "13") Daytime.connect_hints) <> 0 /\
  ~ (exists msg,
       In msg (stderr_of
                 (trace (snd (Daytime.main os_unresolved 5
                                [txt "daytime"; txt "example.invalid";
                                 txt "13"] proc0)))) /\
       exists pre post,
         msg = pre ++ txt "example.invalid" ++ post).
Proof.
  split; [vm_compute; discriminate |].
  intros (msg & Hin & pre & post & Hmsg).
  vm_compute in Hin. destruct Hin as [<- | []].
  pose proof (contains_occurrence (txt "example.invalid") pre post) as Hc.
  rewrite <- Hmsg in Hc. vm_compute in Hc. discriminate Hc.
Qed.

(** *** The server's session handler *)

Lemma quiet_nil : quiet [].
Proof. split; reflexivity. Qed.

Lemma quiet_syslog (priority : Z) (s : text) : quiet [Syslog priority s].
Proof. split; reflexivity. Qed.

Lemma quiet_app (a b : list event) : quiet a -> quiet b -> quiet (a ++ b).
Proof.
  intros [Ha1 Ha2] [Hb1 Hb2]. split.
  - now rewrite sends_app, Ha1, Hb1.
  - intros fd. now rewrite closes_app, Ha2, Hb2.
Qed.

Lemma quiet_accept (fd client priority : Z) (s : text) :
  quiet [Accept fd client; Syslog priority s].
Proof. split; reflexivity. Qed.

Lemma c_str_store_nul_0 (buffer : list ascii) :
  buffer <> [] -> c_str (<[0%nat := NUL]> buffer) = [].
Proof. destruct buffer; [congruence | reflexivity]. Qed.

Lemma take_c_str (buffer : list ascii) :
  take (length (c_str buffer)) buffer = c_str buffer.
Proof.
  induction buffer as [| c buffer IH]; [reflexivity |].
  cbn. destruct (is_nul c); cbn; [reflexivity | now rewrite IH].
Qed.

Lemma take_strlen (buffer : list ascii) :
  take (Z.to_nat (strlen buffer)) buffer = c_str buffer.
Proof. unfold strlen. rewrite Nat2Z.id. apply take_c_str. Qed.

Lemma local_array_length (o : os) (n : nat) (p : proc) :
  exists msg, local_array o n p = (Ret msg, p) /\ length msg = n.
Proof.
  eexists. split; [reflexivity |].
  rewrite length_take, length_app, length_replicate. lia.
Qed.

(** The formatter always returns, and logs at most the breakdown error. *)
Lemma daytime_run (o : os) (buffer : list ascii) (size local : Z) (p : proc) :
  exists b evs,
    Daytimed.daytime o buffer size local p =
      (Ret b, {| tick := S (tick p); errno := errno p;
                 trace := trace p ++ evs |}) /\
    formatted o size local buffer b /\ quiet evs.
Proof.
  unfold Daytimed.daytime. run_call.
  unfold formatted, gmtime, localtime.
  destruct (if local =? 0 then os_gmtime o (os_time o (tick p))
            else os_localtime o (os_time o (tick p))) as [t |] eqn:Hbd.
  - exists (snd (strftime buffer size Daytimed.DAYTIME_FORMAT t)), [].
    split; [cbn; now rewrite app_nil_r |].
    split; [| apply quiet_nil].
    exists (os_time o (tick p)). now rewrite Hbd.
  - exists (<[0%nat := NUL]> buffer), [Syslog LOG_ERR (txt "localtime or gmtime failed")].
    split; [reflexivity |].
    split; [| apply quiet_syslog].
    exists (os_time o (tick p)). now rewrite Hbd.
Qed.

Lemma sctp_accept_failed (o : os) (listenfd : Z) (p : proc) :
  fst (os_accept o (tick p) listenfd) = -1 ->
  Daytimed.sctp_accept o listenfd p =
    (Ret (-1),
     {| tick := S (tick p); errno := os_errno o (tick p);
        trace := trace p ++
                 [Accept listenfd (-1);
                  Syslog LOG_ERR (txt "accept failed: "
                                    ++ os_strerror o (os_errno o (tick p)))] |}).
Proof.
  intros H. unfold Daytimed.sctp_accept. run_call.
  destruct (os_accept o (tick p) listenfd) as [fd ss]. cbn [fst] in *.
  subst fd. change (-1 =? -1) with true. cbv iota.
  run_call. run_call. cbn. now rewrite <- app_assoc.
Qed.

Lemma sctp_accept_succeeded (o : os) (listenfd : Z) (p : proc) :
  fst (os_accept o (tick p) listenfd) <> -1 ->
  exists p' priority s,
    Daytimed.sctp_accept o listenfd p =
      (Ret (fst (os_accept o (tick p) listenfd)), p') /\
    trace p' = trace p ++ [Accept listenfd (fst (os_accept o (tick p) listenfd));
                           Syslog priority s].
Proof.
  intros H. unfold Daytimed.sctp_accept. run_call.
  destruct (os_accept o (tick p) listenfd) as [fd ss]. cbn [fst] in *.
  apply Z.eqb_neq in H. rewrite H. run_call.
  destruct (os_getnameinfo o _ ss NI_NUMERICHOST) as [n [host serv]].
  destruct (n =? 0); cbn [negb]; run_call;
    (eexists _, _, _; split; [reflexivity |]);
    cbn; now rewrite <- app_assoc.
Qed.

Lemma quiet_mismatch_log (r : Z) (message : list ascii) (complaint : text) :
  quiet (mismatch_log r message complaint).
Proof.
  unfold mismatch_log. destruct (_ =? _); [apply quiet_nil | apply quiet_syslog].
Qed.

(** Logging the outcome of a send. *)
Lemma report_mismatch (r : Z) (message : list ascii) (complaint : text)
    (p : proc) :
  (if negb (r mod SIZE_MOD =? strlen message)
   then syslog LOG_ERR complaint else ret tt) p =
    (Ret tt, {| tick := tick p; errno := errno p;
                trace := trace p ++ mismatch_log r message complaint |}).
Proof.
  unfold mismatch_log. destruct (_ =? _); cbn [negb].
  - destruct p. cbn. now rewrite app_nil_r.
  - reflexivity.
Qed.

(** A session after a successful accept: two sends, on streams 0 and 1,
    each of the string the formatter left in the message buffer and each
    followed by the log entry for a mismatch, then the close. *)
Lemma sctp_daytime_session (o : os) (listenfd : Z) (p : proc) :
  fst (os_accept o (tick p) listenfd) <> -1 ->
  exists msg m0 m1 r0 r1 pre log1 p',
    Daytimed.sctp_daytime o listenfd p = (Ret tt, p') /\
    trace p' =
      trace p ++ pre
        ++ [Sendmsg (fst (os_accept o (tick p) listenfd)) (c_str m0) 0 r0]
        ++ mismatch_log r0 m0
             (txt "sctp_sendmsg failed (daytime_stream_local)")
        ++ log1
        ++ [Sendmsg (fst (os_accept o (tick p) listenfd)) (c_str m1) 1 r1]
        ++ mismatch_log r1 m1
             (txt "sctp_sendmsg failed (daytime_stream_gmt)")
        ++ [Close (fst (os_accept o (tick p) listenfd))] /\
    length msg = 128%nat /\
    formatted o 128 1 msg m0 /\ formatted o 128 0 m0 m1 /\
    quiet pre /\ quiet log1.
Proof.
  intros Hacc. unfold Daytimed.sctp_daytime.
  destruct (local_array_length o 128 p) as (msg & Harr & Hlen).
  erewrite bind_ret by exact Harr.
  destruct (sctp_accept_succeeded o listenfd p Hacc)
    as (p1 & priority & s & Hrun & Htr1).
  erewrite bind_ret by exact Hrun.
  set (client := fst (os_accept o (tick p) listenfd)) in *.
  apply Z.eqb_neq in Hacc. rewrite Hacc.
  destruct (daytime_run o msg 128 1 p1) as (m0 & log0 & Hd0 & Hf0 & Hq0).
  erewrite bind_ret by exact Hd0.
  run_call. rewrite take_strlen.
  match goal with
  | |- context [Sendmsg client (c_str m0) _ ?r] => set (r0 := r)
  end.
  erewrite bind_ret by apply report_mismatch.
  match goal with
  | |- context [Sys.bind (Daytimed.daytime o m0 128 0) _ ?q] =>
      destruct (daytime_run o m0 128 0 q) as (m1 & log1 & Hd1 & Hf1 & Hq1)
  end.
  erewrite bind_ret by exact Hd1.
  run_call. rewrite take_strlen.
  match goal with
  | |- context [Sendmsg client (c_str m1) _ ?r] => set (r1 := r)
  end.
  erewrite bind_ret by apply report_mismatch.
  run_call.
  exists msg, m0, m1, r0, r1.
  exists ([Accept listenfd client; Syslog priority s] ++ log0), log1.
  eexists. split; [reflexivity |].
  cbn [trace]. rewrite Htr1.
  split; [now rewrite <- !app_assoc |].
  do 3 (split; [assumption |]).
  auto using quiet_app, quiet_accept.
Qed.

Lemma sctp_daytime_accept_failed (o : os) (listenfd : Z) (p : proc) :
  fst (os_accept o (tick p) listenfd) = -1 ->
  Daytimed.sctp_daytime o listenfd p =
    (Ret tt,
     {| tick := S (tick p); errno := os_errno o (tick p);
        trace := trace p ++
                 [Accept listenfd (-1);
                  Syslog LOG_ERR (txt "accept failed: "
                                    ++ os_strerror o (os_errno o (tick p)))] |}).
Proof.
  intros H. unfold Daytimed.sctp_daytime. run_call.
  erewrite bind_ret by (apply sctp_accept_failed, H).
  reflexivity.
Qed.

(** The session handler always returns to the loop. *)
Lemma sctp_daytime_returns (o : os) (listenfd : Z) (p : proc) :
  exists p', Daytimed.sctp_daytime o listenfd p = (Ret tt, p').
Proof.
  destruct (Z.eq_dec (fst (os_accept o (tick p) listenfd)) (-1)) as [H | H].
  - eexists. apply sctp_daytime_accept_failed, H.
  - destruct (sctp_daytime_session o listenfd p H)
      as (? & ? & ? & ? & ? & ? & ? & p' & Hrun & _).
    now exists p'.
Qed.

(** The loop of [main] does not end while the listening descriptor is
    valid. *)
Lemma serve_keeps_running (o : os) (tfd : Z) (fuel : nat) :
  tfd <> -1 -> forall p, fst (Daytimed.serve o fuel tfd p) = Running.
Proof.
  intros Htfd. apply Z.eqb_neq in Htfd.
  induction fuel as [| fuel IH]; intros p; cbn [Daytimed.serve]; rewrite Htfd.
  - reflexivity.
  - destruct (sctp_daytime_returns o tfd p) as [p' Hrun].
    erewrite bind_ret by exact Hrun. apply IH.
Qed.

(** *** C5: the association is closed exactly once *)

(** C5. After a successful accept the session handler always returns, and
    what it does is: the send on stream 0, the log entry if the result
    differs from the message length, the send on stream 1, its log entry,
    and then the close of the client association.  Whatever the sends
    return, the close is the last action and the only close. *)
Theorem session_closes_exactly_once (o : os) (listenfd : Z) (p : proc) :
  fst (os_accept o (tick p) listenfd) <> -1 ->
  exists b0 b1 r0 r1 pre log1 evs p',
    Daytimed.sctp_daytime o listenfd p = (Ret tt, p') /\
    trace p' = trace p ++ evs /\
    evs = pre
        ++ [Sendmsg (fst (os_accept o (tick p) listenfd)) (c_str b0) 0 r0]
        ++ mismatch_log r0 b0
             (txt "sctp_sendmsg failed (daytime_stream_local)")
        ++ log1
        ++ [Sendmsg (fst (os_accept o (tick p) listenfd)) (c_str b1) 1 r1]
        ++ mismatch_log r1 b1
             (txt "sctp_sendmsg failed (daytime_stream_gmt)")
        ++ [Close (fst (os_accept o (tick p) listenfd))] /\
    quiet pre /\ quiet log1 /\
    closes (fst (os_accept o (tick p) listenfd)) evs = 1%nat.
Proof.
  intros Hacc.
  destruct (sctp_daytime_session o listenfd p Hacc)
    as (msg & b0 & b1 & r0 & r1 & pre & log1 & p' & Hrun & Htr & _ & _ & _
        & Hpre & Hlog).
  exists b0, b1, r0, r1, pre, log1. eexists. exists p'.
  split; [exact Hrun |]. split; [exact Htr |]. split; [reflexivity |].
  split; [exact Hpre |]. split; [exact Hlog |].
  rewrite !closes_app.
  rewrite (proj2 Hpre), (proj2 Hlog),
    (proj2 (quiet_mismatch_log r0 b0 _)), (proj2 (quiet_mismatch_log r1 b1 _)).
  cbn. now rewrite Z.eqb_refl.
Qed.

Lemma session_closes_exactly_once_witness :
  exists b0 b1 r0 r1 pre log1 evs p',
    Daytimed.sctp_daytime (os_serving 7) 3 proc0 = (Ret tt, p') /\
    trace p' = trace proc0 ++ evs /\
    evs = pre
        ++ [Sendmsg (fst (os_accept (os_serving 7) (tick proc0) 3))
              (c_str b0) 0 r0]
        ++ mismatch_log r0 b0
             (txt "sctp_sendmsg failed (daytime_stream_local)")
        ++ log1
        ++ [Sendmsg (fst (os_accept (os_serving 7) (tick proc0) 3))
              (c_str b1) 1 r1]
        ++ mismatch_log r1 b1
             (txt "sctp_sendmsg failed (daytime_stream_gmt)")
        ++ [Close (fst (os_accept (os_serving 7) (tick proc0) 3))] /\
    quiet pre /\ quiet log1 /\
    closes (fst (os_accept (os_serving 7) (tick proc0) 3)) evs = 1%nat.
Proof.
  apply (session_closes_exactly_once (os_serving 7) 3 proc0).
  vm_compute. discriminate.
Defined.

(** *** The client's receive loop *)

Lemma blit_fits (data buf : list ascii) :
  (length data <= length buf)%nat ->
  blit data buf = data ++ drop (length data) buf.
Proof.
  intros H. unfold blit. apply take_ge.
  rewrite length_app, length_drop. lia.
Qed.

Lemma blit_length (data buf : list ascii) :
  length (blit data buf) = length buf.
Proof.
  unfold blit. rewrite length_take, length_app, length_drop. lia.
Qed.

Lemma c_str_app_nul (l r : list ascii) : c_str (l ++ NUL :: r) = c_str l.
Proof.
  induction l as [| c l IH]; [reflexivity |].
  cbn. destruct (is_nul c); [reflexivity | now rewrite IH].
Qed.

(** Storing a NUL behind the bytes received makes them the C string of
    the buffer, whatever the buffer held before. *)
Lemma c_str_received (got buf : list ascii) :
  (length got < length buf)%nat ->
  c_str (<[length got := NUL]> (blit got buf)) = c_str got.
Proof.
  intros H. rewrite blit_fits by lia.
  replace (length got) with (length got + 0)%nat at 1 by lia.
  rewrite insert_app_r.
  destruct (drop (length got) buf) as [| c rest] eqn:Hd.
  - apply (f_equal length) in Hd. rewrite length_drop in Hd. cbn in Hd. lia.
  - cbn [list_insert insert]. change (<[0%nat := NUL]> (c :: rest)) with (NUL :: rest).
    apply c_str_app_nul.
Qed.

Lemma c_str_length_le (buf : list ascii) :
  (length (c_str buf) <= length buf)%nat.
Proof.
  induction buf as [| c buf IH]; cbn; [lia |].
  destruct (is_nul c); cbn; lia.
Qed.

(** Storing a NUL inside the C string cuts it there. *)
Lemma c_str_cut (buf : list ascii) (k : nat) :
  (k < length (c_str buf))%nat ->
  c_str (<[k := NUL]> buf) = take k (c_str buf).
Proof.
  revert k. induction buf as [| c buf IH]; intros k Hk; cbn in Hk; [lia |].
  destruct (is_nul c) eqn:Hc; cbn in Hk; [lia |].
  destruct k as [| k].
  - cbn. reflexivity.
  - change (<[S k := NUL]> (c :: buf)) with (c :: <[k := NUL]> buf).
    cbn [c_str take]. rewrite Hc. cbn [take]. f_equal. apply IH. lia.
Qed.

Lemma until_crlf_cons (c d : ascii) (rest : text) :
  until_crlf (c :: d :: rest) =
    if Ascii.eqb c CR && Ascii.eqb d LF then []
    else c :: until_crlf (d :: rest).
Proof. reflexivity. Qed.

Lemma starts_with_crlf (c d : ascii) (rest : text) :
  starts_with CRLF (c :: d :: rest) = Ascii.eqb c CR && Ascii.eqb d LF.
Proof.
  unfold CRLF. cbn [starts_with].
  now rewrite (Ascii.eqb_sym CR c), (Ascii.eqb_sym LF d), andb_true_r.
Qed.

(** [strstr] for "\r\n" finds the place where [until_crlf] stops. *)
Lemma find_crlf (s : text) (i : nat) :
  match find_from CRLF s i with
  | Some q => exists k, q = (i + k)%nat /\ (k < length s)%nat
                        /\ until_crlf s = take k s
  | None => until_crlf s = s
  end.
Proof.
  revert i. induction s as [| c rest IH]; intros i; [reflexivity |].
  rewrite find_from_eq.
  destruct rest as [| d rest'].
  - unfold CRLF. cbn [starts_with]. rewrite andb_false_r. reflexivity.
  - rewrite starts_with_crlf, until_crlf_cons.
    destruct (Ascii.eqb c CR && Ascii.eqb d LF).
    + exists 0%nat. cbn. split; [lia | split; [lia | reflexivity]].
    + specialize (IH (S i)).
      destruct (find_from CRLF (d :: rest') (S i)) as [q |].
      * destruct IH as (k & -> & Hk & Hu).
        exists (S k). cbn [length take] in *. rewrite Hu.
        split; [lia | split; [lia | reflexivity]].
      * now rewrite IH.
Qed.

Lemma until_crlf_none (s : text) : ~ has_crlf s -> until_crlf s = s.
Proof.
  induction s as [| c rest IH]; intros H; [reflexivity |].
  destruct rest as [| d rest']; [reflexivity |].
  rewrite until_crlf_cons.
  destruct (Ascii.eqb_spec c CR) as [-> | Hc];
    [destruct (Ascii.eqb_spec d LF) as [-> | Hd] |]; cbn [andb].
  - exfalso. apply H. now exists [], rest'.
  - f_equal. apply IH. intros (pre & post & Heq).
    apply H. exists (CR :: pre), post. now rewrite Heq.
  - f_equal. apply IH. intros (pre & post & Heq).
    apply H. exists (c :: pre), post. now rewrite Heq.
Qed.


(** Cutting at the terminator and stopping at the first NUL commute. *)
Lemma c_str_until_crlf (s : text) :
  c_str (until_crlf s) = until_crlf (c_str s).
Proof.
  induction s as [| c rest IH]; [reflexivity |].
  destruct rest as [| d rest'].
  - cbn. destruct (is_nul c); reflexivity.
  - rewrite until_crlf_cons.
    destruct (Ascii.eqb_spec c CR) as [-> | Hc];
      [destruct (Ascii.eqb_spec d LF) as [-> | Hd] |]; cbn [andb].
    + reflexivity.
    + cbn [c_str] in *. change (is_nul CR) with false. cbv iota.
      rewrite IH.
      destruct (is_nul d); [reflexivity |].
      rewrite until_crlf_cons.
      rewrite Ascii.eqb_refl. cbn [andb].
      now destruct (Ascii.eqb_spec d LF).
    + cbn [c_str] in *.
      destruct (is_nul c); [reflexivity |].
      rewrite IH.
      destruct (is_nul d); [reflexivity |].
      rewrite until_crlf_cons.
      now destruct (Ascii.eqb_spec c CR).
Qed.

(** The two stores of the loop body leave the trimmed text as the C
    string of the message buffer. *)
Lemma terminate_received (got buf : list ascii) :
  (length got < length buf)%nat ->
  c_str (Daytime.terminate (blit got buf) (Z.of_nat (length got)))
    = until_crlf (c_str got) /\
  length (Daytime.terminate (blit got buf) (Z.of_nat (length got)))
    = length buf.
Proof.
  intros H. unfold Daytime.terminate, strstr. rewrite Nat2Z.id.
  rewrite c_str_received by exact H.
  pose proof (find_crlf (c_str got) 0) as Hfind.
  destruct (find_from CRLF (c_str got) 0) as [q |].
  - destruct Hfind as (k & -> & Hk & Hu). cbn [Nat.add].
    rewrite length_insert, length_insert, blit_length.
    split; [| reflexivity].
    rewrite c_str_cut; rewrite c_str_received by exact H; [now rewrite Hu | exact Hk].
  - rewrite c_str_received by exact H.
    rewrite length_insert, blit_length. now rewrite Hfind.
Qed.

(** The switch on the stream identifier prints what [shown] says. *)
Lemma report_run (o : os) (host serv : text) (message : list ascii)
    (stream : Z) (p : proc) :
  Daytime.report host serv message stream p =
    (Ret tt, {| tick := tick p; errno := errno p;
                trace := trace p ++ [shown host serv (c_str message) stream] |}).
Proof.
  unfold Daytime.report, shown, Daytime.DAYTIME_STREAM_LOCAL,
    Daytime.DAYTIME_STREAM_GMT.
  destruct (stream =? 0); [| destruct (stream =? 1)]; cbn;
    repeat f_equal; now rewrite <- ?app_assoc.
Qed.

Lemma store_nul_received (got buf : list ascii) :
  (length got < length buf)%nat ->
  <[length got := NUL]> (blit got buf)
    = got ++ NUL :: drop (S (length got)) buf.
Proof.
  intros H. rewrite blit_fits by lia.
  replace (length got) with (length got + 0)%nat at 1 by lia.
  rewrite insert_app_r. f_equal.
  destruct (drop (length got) buf) as [| c rest] eqn:Hd.
  - apply (f_equal length) in Hd. rewrite length_drop in Hd. cbn in Hd. lia.
  - change (<[0%nat := NUL]> (c :: rest)) with (NUL :: rest). f_equal.
    rewrite <- (Nat.add_1_l (length got)), Nat.add_comm, <- drop_drop, Hd.
    reflexivity.
Qed.

Lemma c_str_prefix (buf : list ascii) :
  exists rest, buf = c_str buf ++ rest.
Proof.
  induction buf as [| c buf [rest IH]]; [now exists [] |].
  cbn. destruct (is_nul c).
  - now exists (c :: buf).
  - exists rest. cbn. now rewrite <- IH.
Qed.

Lemma has_crlf_c_str (buf : list ascii) :
  has_crlf (c_str buf) -> has_crlf buf.
Proof.
  intros (pre & post & Heq). destruct (c_str_prefix buf) as [rest Hbuf].
  exists pre, (post ++ rest). rewrite Hbuf, Heq at 1.
  now rewrite <- !app_assoc.
Qed.

Lemma c_str_no_nul (buf : list ascii) :
  Forall (fun c => c <> NUL) buf -> c_str buf = buf.
Proof.
  induction 1 as [| c buf Hc _ IH]; [reflexivity |].
  cbn. unfold is_nul. destruct (Ascii.eqb_spec c NUL); [contradiction |].
  now rewrite IH.
Qed.

(** One round of the receive loop on a message of at least one byte. *)
Lemma receive_round (o : os) (fuel : nat) (fd : Z) (host serv : text)
    (message : list ascii) (p : proc) (data : text) (stream : Z) :
  length message = 128%nat ->
  os_recvmsg o (tick p) fd = Some (data, stream) ->
  data <> [] ->
  Daytime.receive o (S fuel) fd host serv message p =
  Daytime.receive o fuel fd host serv
    (Daytime.terminate (blit (take 127 data) message)
       (Z.of_nat (length (take 127 data))))
    {| tick := S (tick p); errno := errno p;
       trace := trace p ++
                [Recvmsg fd 127 (Z.of_nat (length (take 127 data)));
                 shown host serv (until_crlf (c_str (take 127 data)))
                   (stream mod U16_MOD)] |}.
Proof.
  intros Hlen Hrecv Hdata.
  assert (Hgot : (0 < length (take 127 data) <= 127)%nat).
  { rewrite length_take. destruct data; [congruence | cbn [length]; lia]. }
  destruct (terminate_received (take 127 data) message) as [Hc Hl]; [lia |].
  cbn [Daytime.receive]. run_call.
  cbn [tick errno trace].
  rewrite !Hrecv. change (Z.to_nat (128 - 1)) with 127%nat.
  change (128 - 1) with 127.
  cbn [fst snd].
  replace (Z.of_nat (length (take 127 data)) >? 0) with true
    by (symmetry; apply Z.gtb_lt; lia).
  replace (Z.of_nat (length (take 127 data)) <? 0) with false
    by (symmetry; apply Z.ltb_ge; lia).
  erewrite bind_ret by apply (report_run o).
  rewrite Hc. cbn [tick errno trace]. rewrite <- app_assoc. reflexivity.
Qed.

(** *** Decimal conversion and the expansion of the format *)

Lemma dec_digits_eq (fuel : nat) (n : Z) (acc : text) :
  dec_digits (S fuel) n acc =
    if n / 10 =? 0 then digit_char (n mod 10) :: acc
    else dec_digits fuel (n / 10) (digit_char (n mod 10) :: acc).
Proof. reflexivity. Qed.

Lemma digit_char_not_nul (d : Z) : 0 <= d <= 9 -> digit_char d <> NUL.
Proof.
  intros H.
  assert (Hd : d = 0 \/ d = 1 \/ d = 2 \/ d = 3 \/ d = 4 \/ d = 5 \/ d = 6
               \/ d = 7 \/ d = 8 \/ d = 9) by lia.
  repeat (destruct Hd as [-> | Hd]; [discriminate |]).
  subst d. discriminate.
Qed.

Lemma dec_digits_not_nul (fuel : nat) (n : Z) (acc : text) :
  Forall (fun c => c <> NUL) acc ->
  Forall (fun c => c <> NUL) (dec_digits fuel n acc).
Proof.
  revert n acc. induction fuel as [| fuel IH]; intros n acc Hacc.
  - cbn. constructor; [| exact Hacc].
    apply digit_char_not_nul. pose proof (Z.mod_pos_bound n 10). lia.
  - rewrite dec_digits_eq.
    assert (Hd : Forall (fun c => c <> NUL) (digit_char (n mod 10) :: acc)).
    { constructor; [| exact Hacc].
      apply digit_char_not_nul. pose proof (Z.mod_pos_bound n 10). lia. }
    destruct (n / 10 =? 0); [exact Hd | now apply IH].
Qed.

(** A number below [10 ^ k] has at most [k] digits. *)
Lemma dec_digits_length (fuel : nat) (k : nat) (n : Z) (acc : text) :
  (1 <= k)%nat -> 0 <= n < 10 ^ Z.of_nat k ->
  (length (dec_digits fuel n acc) <= k + length acc)%nat.
Proof.
  revert k n acc. induction fuel as [| fuel IH]; intros k n acc Hk Hn.
  - cbn. lia.
  - rewrite dec_digits_eq.
    destruct (n / 10 =? 0) eqn:Hq; [cbn; lia |].
    apply Z.eqb_neq in Hq.
    assert (Hn10 : 10 <= n).
    { destruct (Z_lt_le_dec n 10) as [Hlt | Hle]; [| exact Hle].
      rewrite Z.div_small in Hq by lia. congruence. }
    destruct k as [| [| k]]; [lia | cbn in Hn; lia |].
    specialize (IH (S k) (n / 10) (digit_char (n mod 10) :: acc)).
    cbn [length] in IH.
    assert (Hdiv : 0 <= n / 10 < 10 ^ Z.of_nat (S k)).
    { split; [apply Z.div_pos; lia |].
      apply Z.div_lt_upper_bound; [lia |].
      replace (Z.of_nat (S (S k))) with (1 + Z.of_nat (S k)) in Hn by lia.
      rewrite Z.pow_add_r in Hn by lia. lia. }
    specialize (IH ltac:(lia) Hdiv). lia.
Qed.

Lemma wrap_int_range (z : Z) : - 2 ^ 31 <= wrap_int z < 2 ^ 31.
Proof.
  unfold wrap_int. pose proof (Z.mod_pos_bound (z + 2 ^ 31) (2 ^ 32)). lia.
Qed.


Lemma dec_padded_length (width : nat) (z : Z) :
  (width <= 10)%nat -> - 10 ^ 10 < z < 10 ^ 10 ->
  (length (dec_padded width z) <= 11)%nat.
Proof.
  intros Hw Hz. unfold dec_padded, dec_nonneg.
  pose proof (dec_digits_length 20 10 (Z.abs z) [] ltac:(lia)
                ltac:(change (Z.of_nat 10) with 10; lia)) as Hlen.
  cbn [length] in Hlen.
  destruct (z <? 0); cbn [length];
    rewrite length_app, length_replicate; lia.
Qed.

Lemma dec_padded_not_nul (width : nat) (z : Z) :
  Forall (fun c => c <> NUL) (dec_padded width z).
Proof.
  unfold dec_padded, dec_nonneg.
  assert (H : forall k, Forall (fun c => c <> NUL)
                (replicate k "0"%char ++ dec_digits 20 (Z.abs z) [])).
  { intros k. apply Forall_app. split.
    - apply Forall_replicate. discriminate.
    - apply dec_digits_not_nul. constructor. }
  destruct (z <? 0); [constructor; [discriminate | apply H] | apply H].
Qed.



(** The server's format expands to the date, a space, the time of day and
    the line terminator. *)
Lemma daytime_format_expansion (t : tm) :
  strftime_expand Daytimed.DAYTIME_FORMAT t =
    conv_Y t ++ txt "-" ++ conv_m t ++ txt "-" ++ conv_d t ++ txt " "
      ++ conv_H t ++ txt ":" ++ conv_M t ++ txt ":" ++ conv_S t ++ CRLF.
Proof.
  unfold Daytimed.DAYTIME_FORMAT.
  change (txt "%F %T" ++ CRLF)
    with ["%"%char; "F"%char; " "%char; "%"%char; "T"%char; CR; LF].
  cbn [strftime_expand].
  change (Ascii.eqb "%" "%") with true.
  change (Ascii.eqb " " "%") with false.
  change (Ascii.eqb CR "%") with false.
  cbv iota.
  change (conversion "F" t) with (Some (conv_F t)).
  change (conversion "T" t) with (Some (conv_T t)).
  cbv iota. unfold conv_F, conv_T, CRLF.
  change (txt "-") with ["-"%char]. change (txt ":") with [":"%char].
  change (txt " ") with [" "%char].
  rewrite <- !app_assoc. cbn [app].
  rewrite <- !app_assoc. cbn [app]. reflexivity.
Qed.

(** What strftime leaves in a buffer that has room for the expansion. *)
Lemma strftime_fits (buffer : list ascii) (size : Z) (t : tm) :
  Z.of_nat (length (strftime_expand Daytimed.DAYTIME_FORMAT t)) + 1 <= size ->
  size <= Z.of_nat (length buffer) ->
  snd (strftime buffer size Daytimed.DAYTIME_FORMAT t) =
    strftime_expand Daytimed.DAYTIME_FORMAT t
      ++ NUL :: drop (S (length (strftime_expand Daytimed.DAYTIME_FORMAT t)))
                  buffer.
Proof.
  intros Hfit Hsize. unfold strftime.
  replace (_ <=? size) with true by (symmetry; apply Z.leb_le; exact Hfit).
  cbn [snd]. rewrite blit_fits by (rewrite length_app; cbn [length]; lia).
  rewrite <- app_assoc. cbn [app]. do 2 f_equal.
  rewrite length_app. cbn [length]. f_equal. lia.
Qed.

Lemma expansion_not_nul (t : tm) :
  Forall (fun c => c <> NUL) (strftime_expand Daytimed.DAYTIME_FORMAT t).
Proof.
  rewrite daytime_format_expansion.
  unfold conv_Y, conv_m, conv_d, conv_H, conv_M, conv_S.
  repeat (apply Forall_app; split);
    try apply dec_padded_not_nul;
    repeat constructor; discriminate.
Qed.

Lemma expansion_length (t : tm) :
  tm_is_int t ->
  (length (strftime_expand Daytimed.DAYTIME_FORMAT t) <= 73)%nat.
Proof.
  intros (Hs & Hmi & Hh & Hd & Hmo & Hy). unfold is_int in *.
  rewrite daytime_format_expansion.
  unfold conv_Y, conv_m, conv_d, conv_H, conv_M, conv_S.
  rewrite !length_app.
  pose proof (wrap_int_range (tm_year t + 1900)) as Wy.
  pose proof (wrap_int_range (tm_mon t + 1)) as Wm.
  pose proof (dec_padded_length 1 (wrap_int (tm_year t + 1900))
                ltac:(lia) ltac:(lia)).
  pose proof (dec_padded_length 2 (wrap_int (tm_mon t + 1))
                ltac:(lia) ltac:(lia)).
  pose proof (dec_padded_length 2 (tm_mday t) ltac:(lia) ltac:(lia)).
  pose proof (dec_padded_length 2 (tm_hour t) ltac:(lia) ltac:(lia)).
  pose proof (dec_padded_length 2 (tm_min t) ltac:(lia) ltac:(lia)).
  pose proof (dec_padded_length 2 (tm_sec t) ltac:(lia) ltac:(lia)).
  cbn [length txt list_ascii_of_string CRLF]. lia.
Qed.

(** *** The size of the formatted string *)

(** The string the formatter leaves in the 128-byte message buffer has at
    most 127 bytes (73, in fact), and the buffer keeps its size. *)
Lemma formatted_fits (o : os) (local : Z) (buffer b : list ascii) :
  (forall ticks t,
      os_localtime o ticks = Some t \/ os_gmtime o ticks = Some t ->
      tm_is_int t) ->
  length buffer = 128%nat ->
  formatted o 128 local buffer b ->
  length b = 128%nat /\ (length (c_str b) <= 127)%nat.
Proof.
  intros Hint Hlen [ticks Hf].
  destruct (if local =? 0 then os_gmtime o ticks else os_localtime o ticks)
    as [t |] eqn:Hbd.
  - assert (Ht : tm_is_int t).
    { apply (Hint ticks). destruct (local =? 0); auto. }
    pose proof (expansion_length t Ht) as Hexp.
    rewrite strftime_fits in Hf by lia. subst b.
    split.
    + rewrite length_app. cbn [length]. rewrite length_drop. lia.
    + rewrite c_str_app_nul.
      pose proof (c_str_length_le (strftime_expand Daytimed.DAYTIME_FORMAT t)).
      lia.
  - subst b. rewrite length_insert. split; [exact Hlen |].
    rewrite c_str_store_nul_0; [cbn; lia |].
    destruct buffer; [discriminate | congruence].
Qed.

(** ** Further properties of the two programs *)

(** *** Descriptors opened and closed by the candidate loops *)

Lemma opened_app (a b : list event) : opened (a ++ b) = opened a ++ opened b.
Proof.
  induction a as [| e a IH]; [reflexivity |].
  destruct e; cbn; rewrite ?IH; try reflexivity.
  now destruct (_ <? _).
Qed.

Lemma closed_app (a b : list event) : closed (a ++ b) = closed a ++ closed b.
Proof.
  induction a as [| e a IH]; [reflexivity |].
  destruct e; cbn; now rewrite ?IH.
Qed.

Lemma accepted_app (a b : list event) :
  accepted (a ++ b) = accepted a ++ accepted b.
Proof.
  induction a as [| e a IH]; [reflexivity |].
  destruct e; cbn; rewrite ?IH; try reflexivity.
  now destruct (_ =? _).
Qed.

Lemma accept_calls_app (a b : list event) :
  accept_calls (a ++ b) = (accept_calls a + accept_calls b)%nat.
Proof.
  induction a as [| e a IH]; [reflexivity |].
  destruct e; cbn; now rewrite ?IH.
Qed.

Lemma attempts_app (a b : list event) :
  attempts (a ++ b) = attempts a ++ attempts b.
Proof.
  induction a as [| e a IH]; [reflexivity |].
  destruct e; cbn; now rewrite ?IH.
Qed.

Lemma connect_results_app (a b : list event) :
  connect_results (a ++ b) = connect_results a ++ connect_results b.
Proof.
  induction a as [| e a IH]; [reflexivity |].
  destruct e; cbn; now rewrite ?IH.
Qed.

Lemma bind_results_app (a b : list event) :
  bind_results (a ++ b) = bind_results a ++ bind_results b.
Proof.
  induction a as [| e a IH]; [reflexivity |].
  destruct e; cbn; now rewrite ?IH.
Qed.

Lemma reuse_requests_app (a b : list event) :
  reuse_requests (a ++ b) = reuse_requests a ++ reuse_requests b.
Proof.
  induction a as [| e a IH]; [reflexivity |].
  destruct e; cbn; rewrite ?IH; try reflexivity.
  now destruct (_ && _).
Qed.

Lemma silent_app (a b : list event) : silent a -> silent b -> silent (a ++ b).
Proof.
  intros [Ha1 Ha2] [Hb1 Hb2]. split.
  - now rewrite stdout_of_app, Ha1, Hb1.
  - now rewrite stderr_of_app, Ha2, Hb2.
Qed.

(** A system call in closed form. *)
Lemma syscall_run {A} (o : os) (answer : nat -> A) (status : A -> Z)
    (ev : A -> event) (p : proc) :
  syscall o answer status ev p =
    (Ret (answer (tick p)),
     {| tick := S (tick p);
        errno := if status (answer (tick p)) <? 0
                 then os_errno o (tick p) else errno p;
        trace := trace p ++ [ev (answer (tick p))] |}).
Proof. reflexivity. Qed.

Lemma connect_loop_walk (o : os) (ai : list addrinfo) (fd : Z)
    (p : proc) :
  exists ai' fd' p' evs tried,
    Daytime.connect_loop o ai fd p = (Ret (ai', fd'), p') /\
    trace p' = trace p ++ evs /\
    silent evs /\
    ai = tried ++ ai' /\
    attempts evs = map sctp_socket_of (tried ++ take 1 ai') /\
    match ai' with
    | [] =>
        opened evs = closed evs /\
        Forall (fun r => r <> 0) (connect_results evs)
    | a :: _ =>
        0 <= fd' /\
        opened evs = closed evs ++ [fd'] /\
        exists evs0,
          evs = evs0 ++ [Socket (ai_family a) (ai_socktype a) IPPROTO_SCTP fd';
                         Connect fd' (ai_addr a) 0] /\
          Forall (fun r => r <> 0) (connect_results evs0)
    end.
Proof.
  revert fd p. induction ai as [| a ai IH]; intros fd p.
  - exists [], fd, p, [], []. cbn. rewrite app_nil_r.
    repeat split; constructor.
  - cbn [Daytime.connect_loop]. unfold socket.
    erewrite bind_ret by apply syscall_run. cbn [id].
    set (s := os_socket o (tick p) (ai_family a) (ai_socktype a) IPPROTO_SCTP).
    destruct (s <? 0) eqn:Hs.
    + edestruct IH as (ai' & fd' & p' & evs & tried & Hrun & Htr & Hsil
                       & Hai & Hatt & Hout).
      exists ai', fd', p',
        (Socket (ai_family a) (ai_socktype a) IPPROTO_SCTP s :: evs),
        (a :: tried).
      split; [exact Hrun |].
      split; [rewrite Htr; cbn [trace]; now rewrite <- app_assoc |].
      split; [exact Hsil |].
      split; [cbn; now rewrite Hai |].
      split; [cbn [attempts app map]; now rewrite Hatt |].
      destruct ai' as [| a' ai''].
      * cbn [opened closed connect_results]. rewrite Hs. exact Hout.
      * destruct Hout as (Hfd & Hop & evs0 & Hevs & Hres).
        split; [exact Hfd |].
        split; [cbn [opened closed]; now rewrite Hs |].
        exists (Socket (ai_family a) (ai_socktype a) IPPROTO_SCTP s :: evs0).
        split; [now rewrite Hevs |]. exact Hres.
    + unfold connect. erewrite bind_ret by apply syscall_run. cbn [id tick].
      set (c := os_connect o (S (tick p)) s (ai_addr a)).
      apply Z.ltb_ge in Hs.
      destruct (c =? 0) eqn:Hc.
      * apply Z.eqb_eq in Hc.
        eexists (a :: ai), s, _,
          [Socket (ai_family a) (ai_socktype a) IPPROTO_SCTP s;
           Connect s (ai_addr a) c], [].
        split; [reflexivity |].
        split; [cbn [trace]; now rewrite <- app_assoc |].
        split; [split; reflexivity |].
        split; [reflexivity |].
        split; [reflexivity |].
        split; [exact Hs |].
        split.
        { cbn [opened closed app].
          now replace (s <? 0) with false by (symmetry; apply Z.ltb_ge; lia). }
        exists []. rewrite Hc. split; [reflexivity | constructor].
      * unfold close. erewrite bind_ret by apply syscall_run.
        cbn [id tick trace errno].
        edestruct IH as (ai' & fd' & p' & evs & tried & Hrun & Htr & Hsil
                         & Hai & Hatt & Hout).
        exists ai', fd', p',
          (Socket (ai_family a) (ai_socktype a) IPPROTO_SCTP s
             :: Connect s (ai_addr a) c :: Close s :: evs),
          (a :: tried).
        split; [exact Hrun |].
        split; [rewrite Htr; cbn [trace]; now rewrite <- !app_assoc |].
        split; [exact Hsil |].
        split; [cbn; now rewrite Hai |].
        split; [cbn [attempts app map]; now rewrite Hatt |].
        apply Z.eqb_neq in Hc.
        assert (Hs' : (s <? 0) = false) by (apply Z.ltb_ge; lia).
        destruct ai' as [| a' ai''].
        -- destruct Hout as [Hop Hres].
           split; [cbn [opened closed]; rewrite Hs'; now rewrite Hop |].
           cbn [connect_results]. now constructor.
        -- destruct Hout as (Hfd & Hop & evs0 & Hevs & Hres).
           split; [exact Hfd |].
           split; [cbn [opened closed app]; rewrite Hs'; now rewrite Hop |].
           exists (Socket (ai_family a) (ai_socktype a) IPPROTO_SCTP s
                     :: Connect s (ai_addr a) c :: Close s :: evs0).
           split; [now rewrite Hevs |].
           cbn [connect_results]. now constructor.
Qed.

Lemma bind_loop_walk (o : os) (ai : list addrinfo) (fd : Z)
    (p : proc) :
  exists ai' fd' p' evs tried,
    Daytimed.bind_loop o ai fd p = (Ret (ai', fd'), p') /\
    trace p' = trace p ++ evs /\
    silent evs /\
    ai = tried ++ ai' /\
    attempts evs = map sctp_socket_of (tried ++ take 1 ai') /\
    reuse_requests evs = opened evs /\
    match ai' with
    | [] =>
        opened evs = closed evs /\
        Forall (fun r => r <> 0) (bind_results evs)
    | a :: _ =>
        0 <= fd' /\
        opened evs = closed evs ++ [fd'] /\
        exists evs0 r,
          evs = evs0 ++ [Socket (ai_family a) (ai_socktype a) IPPROTO_SCTP fd';
                         Setsockopt fd' SOL_SOCKET SO_REUSEADDR r;
                         Bind fd' (ai_addr a) 0] /\
          Forall (fun r => r <> 0) (bind_results evs0)
    end.
Proof.
  revert fd p. induction ai as [| a ai IH]; intros fd p.
  - exists [], fd, p, [], []. cbn. rewrite app_nil_r.
    repeat split; constructor.
  - cbn [Daytimed.bind_loop]. unfold socket.
    erewrite bind_ret by apply syscall_run. cbn [id].
    set (s := os_socket o (tick p) (ai_family a) (ai_socktype a) IPPROTO_SCTP).
    destruct (s <? 0) eqn:Hs.
    + edestruct IH as (ai' & fd' & p' & evs & tried & Hrun & Htr & Hsil
                       & Hai & Hatt & Hreuse & Hout).
      exists ai', fd', p',
        (Socket (ai_family a) (ai_socktype a) IPPROTO_SCTP s :: evs),
        (a :: tried).
      split; [exact Hrun |].
      split; [rewrite Htr; cbn [trace]; now rewrite <- app_assoc |].
      split; [exact Hsil |].
      split; [cbn; now rewrite Hai |].
      split; [cbn [attempts app map]; now rewrite Hatt |].
      split; [cbn [reuse_requests opened]; now rewrite Hs |].
      destruct ai' as [| a' ai''].
      * cbn [opened closed bind_results]. rewrite Hs. exact Hout.
      * destruct Hout as (Hfd & Hop & evs0 & r & Hevs & Hres).
        split; [exact Hfd |].
        split; [cbn [opened closed]; now rewrite Hs |].
        exists (Socket (ai_family a) (ai_socktype a) IPPROTO_SCTP s :: evs0), r.
        split; [now rewrite Hevs |]. exact Hres.
    + unfold setsockopt. erewrite bind_ret by apply syscall_run.
      cbn [id tick trace errno].
      set (q := os_setsockopt o (S (tick p)) s SOL_SOCKET SO_REUSEADDR).
      unfold bind_addr. erewrite bind_ret by apply syscall_run.
      cbn [id tick trace errno].
      set (b := os_bind o (S (S (tick p))) s (ai_addr a)).
      assert (Hs' : (s <? 0) = false) by exact Hs.
      apply Z.ltb_ge in Hs.
      destruct (b =? 0) eqn:Hb.
      * apply Z.eqb_eq in Hb.
        eexists (a :: ai), s, _,
          [Socket (ai_family a) (ai_socktype a) IPPROTO_SCTP s;
           Setsockopt s SOL_SOCKET SO_REUSEADDR q;
           Bind s (ai_addr a) b], [].
        split; [reflexivity |].
        split; [cbn [trace]; now rewrite <- !app_assoc |].
        split; [split; reflexivity |].
        split; [reflexivity |].
        split; [reflexivity |].
        split; [cbn; now rewrite Hs' |].
        split; [exact Hs |].
        split; [cbn [opened closed app]; now rewrite Hs' |].
        exists [], q. rewrite Hb. split; [reflexivity | constructor].
      * unfold close. erewrite bind_ret by apply syscall_run.
        cbn [id tick trace errno].
        edestruct IH as (ai' & fd' & p' & evs & tried & Hrun & Htr & Hsil
                         & Hai & Hatt & Hreuse & Hout).
        exists ai', fd', p',
          (Socket (ai_family a) (ai_socktype a) IPPROTO_SCTP s
             :: Setsockopt s SOL_SOCKET SO_REUSEADDR q
             :: Bind s (ai_addr a) b :: Close s :: evs),
          (a :: tried).
        split; [exact Hrun |].
        split; [rewrite Htr; cbn [trace]; now rewrite <- !app_assoc |].
        split; [exact Hsil |].
        split; [cbn; now rewrite Hai |].
        split; [cbn [attempts app map]; now rewrite Hatt |].
        split; [cbn; rewrite Hs'; now rewrite Hreuse |].
        apply Z.eqb_neq in Hb.
        destruct ai' as [| a' ai''].
        -- destruct Hout as [Hop Hres].
           split; [cbn [opened closed]; rewrite Hs'; now rewrite Hop |].
           cbn [bind_results]. now constructor.
        -- destruct Hout as (Hfd & Hop & evs0 & r & Hevs & Hres).
           split; [exact Hfd |].
           split; [cbn [opened closed app]; rewrite Hs'; now rewrite Hop |].
           exists (Socket (ai_family a) (ai_socktype a) IPPROTO_SCTP s
                     :: Setsockopt s SOL_SOCKET SO_REUSEADDR q
                     :: Bind s (ai_addr a) b :: Close s :: evs0), r.
           split; [now rewrite Hevs |].
           cbn [bind_results]. now constructor.
Qed.

Lemma sctp_listen_cases (o : os) (port : text) (p : proc) :
  exists r p' evs,
    Daytimed.sctp_listen o port p = (Ret r, p') /\
    trace p' = trace p ++ evs /\
    stdout_of evs = [] /\
    ((r = -1 /\ opened evs = closed evs /\ exists msg, stderr_of evs = [msg])
     \/
     (0 <= r /\ opened evs = closed evs ++ [r] /\ stderr_of evs = [] /\
      exists evs0 a l,
        evs = evs0 ++ [Bind r a 0; Listen r 42 l] /\ 0 <= l)).
Proof.
  unfold Daytimed.sctp_listen. unfold getaddrinfo, ask.
  erewrite bind_ret by reflexivity.
  destruct (os_getaddrinfo o (tick p) None port Daytimed.listen_hints)
    as [n ai_list].
  destruct (n =? 0); cbn [negb].
  - match goal with
    | |- context [Sys.bind (Daytimed.bind_loop o ai_list 0) _ ?q] =>
        destruct (bind_loop_walk o ai_list 0 q)
          as (ai' & fd' & p1 & evs & tried & Hrun & Htr & [Hso Hse] & Hai
              & Hatt & Hreuse & Hout)
    end.
    erewrite bind_ret by exact Hrun. cbv iota beta. cbn [trace] in Htr.
    destruct ai' as [| a ai''].
    + destruct Hout as [Hop _].
      erewrite bind_ret by reflexivity.
      eexists (-1), _, (evs ++ [Stderr _]).
      split; [reflexivity |].
      split; [cbn [trace]; rewrite Htr; now rewrite <- app_assoc |].
      split; [rewrite stdout_of_app, Hso; reflexivity |].
      left. split; [reflexivity |].
      split; [rewrite opened_app, closed_app; cbn; now rewrite !app_nil_r |].
      eexists. rewrite stderr_of_app, Hse. reflexivity.
    + destruct Hout as (Hfd & Hop & evs0 & r & Hevs & _).
      unfold listen. erewrite bind_ret by apply syscall_run. cbn [id].
      set (l := os_listen o (tick p1) fd' 42).
      destruct (l <? 0) eqn:Hl.
      * unfold get_errno, fprintf_stderr, emit, close.
        erewrite bind_ret by reflexivity.
        erewrite bind_ret by reflexivity.
        erewrite bind_ret by apply syscall_run.
        eexists (-1), _, (evs ++ [Listen fd' 42 l; Stderr _; Close fd']).
        split; [reflexivity |].
        split; [cbn [trace]; rewrite Htr; now rewrite <- !app_assoc |].
        split; [rewrite stdout_of_app, Hso; reflexivity |].
        left. split; [reflexivity |].
        split; [rewrite opened_app, closed_app, Hop; cbn;
                now rewrite !app_nil_r |].
        eexists. rewrite stderr_of_app, Hse. reflexivity.
      * eexists fd', _, (evs ++ [Listen fd' 42 l]).
        split; [reflexivity |].
        split; [cbn [trace]; rewrite Htr; now rewrite <- !app_assoc |].
        split; [rewrite stdout_of_app, Hso; reflexivity |].
        right. split; [exact Hfd |].
        split; [rewrite opened_app, closed_app, Hop; cbn;
                now rewrite !app_nil_r |].
        split; [rewrite stderr_of_app, Hse; reflexivity |].
        eexists (evs0 ++ [Socket _ _ _ fd'; Setsockopt fd' _ _ r]), _, l.
        split; [rewrite Hevs; now rewrite <- !app_assoc |].
        now apply Z.ltb_ge.
  - erewrite bind_ret by reflexivity.
    eexists (-1), _, [Stderr _].
    split; [reflexivity |]. split; [reflexivity |]. split; [reflexivity |].
    left. split; [reflexivity |]. split; [reflexivity |].
    eexists. reflexivity.
Qed.

(** X3. [sctp_listen] always returns, and prints nothing on standard
    output.  Either it returns -1, has printed exactly one message on the
    error channel and has closed every descriptor it opened (also the
    bound one, when listen failed); or it returns a descriptor that is
    not negative, has printed nothing, holds exactly that descriptor
    open, and its last two calls are the successful bind of the
    descriptor and the successful listen on it with backlog 42. *)
Theorem sctp_listen_outcome (o : os) (port : text) (p : proc) :
  exists r p' evs,
    Daytimed.sctp_listen o port p = (Ret r, p') /\
    trace p' = trace p ++ evs /\
    stdout_of evs = [] /\
    ((r = -1 /\ opened evs = closed evs /\ exists msg, stderr_of evs = [msg])
     \/
     (0 <= r /\ opened evs = closed evs ++ [r] /\ stderr_of evs = [] /\
      exists evs0 a l,
        evs = evs0 ++ [Bind r a 0; Listen r 42 l] /\ 0 <= l)).
Proof. exact (sctp_listen_cases o port p). Qed.

Lemma sctp_connect_cases (o : os) (host port : text) (p : proc) :
  exists p' evs,
    trace p' = trace p ++ evs /\
    stdout_of evs = [] /\
    ((exists fd,
        Daytime.sctp_connect o host port p = (Ret fd, p') /\
        0 <= fd /\ opened evs = closed evs ++ [fd] /\ stderr_of evs = [] /\
        exists evs0 a, evs = evs0 ++ [Connect fd a 0])
     \/
     (Daytime.sctp_connect o host port p = (Exit EXIT_FAILURE, p') /\
      opened evs = closed evs /\ exists msg, stderr_of evs = [msg])).
Proof.
  unfold Daytime.sctp_connect. unfold getaddrinfo, ask.
  erewrite bind_ret by reflexivity.
  destruct (os_getaddrinfo o (tick p) (Some host) port Daytime.connect_hints)
    as [n ai_list].
  destruct (n =? 0); cbn [negb].
  - match goal with
    | |- context [Sys.bind (Daytime.connect_loop o ai_list 0) _ ?q] =>
        destruct (connect_loop_walk o ai_list 0 q)
          as (ai' & fd' & p1 & evs & tried & Hrun & Htr & [Hso Hse] & Hai
              & Hatt & Hout)
    end.
    erewrite bind_ret by exact Hrun. cbv iota beta. cbn [trace] in Htr.
    destruct ai' as [| a ai''].
    + destruct Hout as [Hop _].
      erewrite bind_ret by reflexivity.
      eexists {| tick := tick p1; errno := errno p1;
                 trace := trace p1 ++ [Stderr _] |}, (evs ++ [Stderr _]).
      split; [cbn [trace]; rewrite Htr; now rewrite <- app_assoc |].
      split; [rewrite stdout_of_app, Hso; reflexivity |].
      right. split; [reflexivity |].
      split; [rewrite opened_app, closed_app; cbn; now rewrite !app_nil_r |].
      eexists. rewrite stderr_of_app, Hse. reflexivity.
    + destruct Hout as (Hfd & Hop & evs0 & Hevs & _).
      exists p1, evs.
      split; [exact Htr |]. split; [exact Hso |].
      left. exists fd'. split; [reflexivity |].
      split; [exact Hfd |]. split; [exact Hop |]. split; [exact Hse |].
      eexists (evs0 ++ [Socket _ _ _ fd']), _.
      rewrite Hevs. now rewrite <- !app_assoc.
  - erewrite bind_ret by reflexivity.
    eexists {| tick := S (tick p); errno := errno p;
               trace := trace p ++ [Stderr _] |}, [Stderr _].
    split; [reflexivity |]. split; [reflexivity |].
    right. split; [reflexivity |]. split; [reflexivity |].
    eexists. reflexivity.
Qed.

(** X4. [sctp_connect] prints nothing on standard output, and either
    returns a descriptor or leaves the process with [EXIT_FAILURE].  A
    descriptor it returns is not negative and is the only one it left
    open, nothing was printed, and its last call is the successful
    connect of that descriptor.  When it exits, it has printed exactly
    one message on the error channel and has closed every descriptor it
    opened. *)
Theorem sctp_connect_outcome (o : os) (host port : text) (p : proc) :
  exists p' evs,
    trace p' = trace p ++ evs /\
    stdout_of evs = [] /\
    ((exists fd,
        Daytime.sctp_connect o host port p = (Ret fd, p') /\
        0 <= fd /\ opened evs = closed evs ++ [fd] /\ stderr_of evs = [] /\
        exists evs0 a, evs = evs0 ++ [Connect fd a 0])
     \/
     (Daytime.sctp_connect o host port p = (Exit EXIT_FAILURE, p') /\
      opened evs = closed evs /\ exists msg, stderr_of evs = [msg])).
Proof. exact (sctp_connect_cases o host port p). Qed.

(** *** Sessions of the server, one after the other *)

Lemma only_syslog_nil : only_syslog [].
Proof. constructor. Qed.

Lemma only_syslog_one (priority : Z) (s : text) :
  only_syslog [Syslog priority s].
Proof. constructor; [eauto | constructor]. Qed.

Lemma only_syslog_app (a b : list event) :
  only_syslog a -> only_syslog b -> only_syslog (a ++ b).
Proof. intros Ha Hb. apply Forall_app. now split. Qed.

(** Log entries are neither descriptors nor output. *)
Lemma only_syslog_ledger (evs : list event) :
  only_syslog evs ->
  opened evs = [] /\ closed evs = [] /\ accepted evs = [] /\
  accept_calls evs = 0%nat /\ sends evs = [] /\ silent evs.
Proof.
  induction 1 as [| e evs (priority & s & ->) _ IH]; [repeat split |].
  exact IH.
Qed.

Lemma mismatch_log_only_syslog (r : Z) (message : list ascii)
    (complaint : text) :
  only_syslog (mismatch_log r message complaint).
Proof.
  unfold mismatch_log.
  destruct (_ =? _); [apply only_syslog_nil | apply only_syslog_one].
Qed.

Lemma daytime_logs_only (o : os) (buffer : list ascii) (size local : Z)
    (p : proc) :
  exists b evs,
    Daytimed.daytime o buffer size local p =
      (Ret b, {| tick := S (tick p); errno := errno p;
                 trace := trace p ++ evs |}) /\
    only_syslog evs.
Proof.
  unfold Daytimed.daytime. run_call.
  destruct (if local =? 0 then gmtime o (os_time o (tick p))
            else localtime o (os_time o (tick p))) as [t |].
  - eexists _, []. split; [cbn; now rewrite app_nil_r | constructor].
  - eexists _, [_]. split; [reflexivity | apply only_syslog_one].
Qed.

(** The calls of a session, for every environment: one accept; after a
    successful one, two sends on the accepted descriptor and its close,
    with nothing but log entries in between. *)
Lemma session_calls (o : os) (listenfd : Z) (p : proc) :
  exists p' evs,
    Daytimed.sctp_daytime o listenfd p = (Ret tt, p') /\
    trace p' = trace p ++ evs /\
    ((fst (os_accept o (tick p) listenfd) = -1 /\
      exists s, evs = [Accept listenfd (-1); Syslog LOG_ERR s])
     \/
     (fst (os_accept o (tick p) listenfd) <> -1 /\
      exists l1 l2 l3 m0 m1 r0 r1,
        evs = [Accept listenfd (fst (os_accept o (tick p) listenfd))]
                ++ l1
                ++ [Sendmsg (fst (os_accept o (tick p) listenfd)) m0 0 r0]
                ++ l2
                ++ [Sendmsg (fst (os_accept o (tick p) listenfd)) m1 1 r1]
                ++ l3
                ++ [Close (fst (os_accept o (tick p) listenfd))] /\
        only_syslog l1 /\ only_syslog l2 /\ only_syslog l3)).
Proof.
  destruct (Z.eq_dec (fst (os_accept o (tick p) listenfd)) (-1)) as [H | H].
  - eexists _, [_; _].
    split; [apply sctp_daytime_accept_failed, H |].
    split; [reflexivity |]. left. split; [exact H | eauto].
  - unfold Daytimed.sctp_daytime.
    destruct (local_array_length o 128 p) as (msg & Harr & Hlen).
    erewrite bind_ret by exact Harr.
    destruct (sctp_accept_succeeded o listenfd p H)
      as (p1 & priority & s & Hrun & Htr1).
    erewrite bind_ret by exact Hrun.
    set (client := fst (os_accept o (tick p) listenfd)) in *.
    assert (Hne : (client =? -1) = false) by now apply Z.eqb_neq.
    rewrite Hne.
    destruct (daytime_logs_only o msg 128 1 p1) as (m0 & log0 & Hd0 & Hq0).
    erewrite bind_ret by exact Hd0.
    run_call.
    match goal with
    | |- context [Sendmsg client ?m _ ?r] => set (pay0 := m); set (r0 := r)
    end.
    erewrite bind_ret by apply report_mismatch.
    match goal with
    | |- context [Sys.bind (Daytimed.daytime o m0 128 0) _ ?q] =>
        destruct (daytime_logs_only o m0 128 0 q) as (m1 & log1 & Hd1 & Hq1)
    end.
    erewrite bind_ret by exact Hd1.
    run_call.
    match goal with
    | |- context [Sendmsg client ?m Daytimed.DAYTIME_STREAM_GMT ?r] =>
        set (pay1 := m); set (r1 := r)
    end.
    erewrite bind_ret by apply report_mismatch.
    run_call.
    eexists _, _. split; [reflexivity |].
    split.
    2:{ right. split; [exact H |].
        exists (Syslog priority s :: log0),
          (mismatch_log r0 m0 (txt "sctp_sendmsg failed (daytime_stream_local)")
             ++ log1),
          (mismatch_log r1 m1 (txt "sctp_sendmsg failed (daytime_stream_gmt)")),
          pay0, pay1, r0, r1.
        split; [reflexivity |].
        split; [constructor; [eauto | exact Hq0] |].
        split; [apply only_syslog_app;
                [apply mismatch_log_only_syslog | exact Hq1] |].
        apply mismatch_log_only_syslog. }
    cbn [trace]. rewrite Htr1. now rewrite <- !app_assoc.
Qed.

Lemma session_ledger (o : os) (listenfd : Z) (p : proc) :
  exists p' r rest,
    Daytimed.sctp_daytime o listenfd p = (Ret tt, p') /\
    trace p' = trace p ++ Accept listenfd r :: rest /\
    accept_calls rest = 0%nat /\
    accepted (Accept listenfd r :: rest) = closed (Accept listenfd r :: rest) /\
    opened rest = [] /\ silent rest /\
    length (sends rest) = (2 * length (closed rest))%nat.
Proof.
  destruct (session_calls o listenfd p)
    as (p' & evs & Hrun & Htr & [[Hacc (s & ->)] | [Hacc Hev]]).
  - exists p', (-1), [Syslog LOG_ERR s].
    repeat split; assumption || reflexivity.
  - destruct Hev as (l1 & l2 & l3 & m0 & m1 & r0 & r1 & -> & H1 & H2 & H3).
    set (client := fst (os_accept o (tick p) listenfd)) in *.
    destruct (only_syslog_ledger l1 H1) as (O1 & C1 & A1 & N1 & S1 & [So1 Se1]).
    destruct (only_syslog_ledger l2 H2) as (O2 & C2 & A2 & N2 & S2 & [So2 Se2]).
    destruct (only_syslog_ledger l3 H3) as (O3 & C3 & A3 & N3 & S3 & [So3 Se3]).
    eexists p', client, _.
    split; [exact Hrun |]. split; [exact Htr |].
    apply Z.eqb_neq in Hacc.
    split.
    { rewrite !accept_calls_app, N1, N2, N3. reflexivity. }
    split.
    { cbn [accepted closed]. rewrite Hacc.
      rewrite !accepted_app, !closed_app, A1, A2, A3, C1, C2, C3.
      reflexivity. }
    split.
    { rewrite !opened_app, O1, O2, O3. reflexivity. }
    split.
    { split.
      - rewrite !stdout_of_app, So1, So2, So3. reflexivity.
      - rewrite !stderr_of_app, Se1, Se2, Se3. reflexivity. }
    rewrite !sends_app, !closed_app, S1, S2, S3, C1, C2, C3. reflexivity.
Qed.

Lemma accept_split (a b pre post : list event) (fd r : Z) :
  a ++ b = pre ++ Accept fd r :: post ->
  (exists post', a = pre ++ Accept fd r :: post') \/
  (exists pre', pre = a ++ pre' /\ b = pre' ++ Accept fd r :: post).
Proof.
  revert pre. induction a as [| e a IH]; intros pre H.
  - right. exists pre. split; [reflexivity | exact H].
  - destruct pre as [| e' pre].
    + left. cbn in H. injection H as -> _. exists a. reflexivity.
    + cbn in H. injection H as -> H.
      destruct (IH pre H) as [[post' ->] | (pre' & -> & ->)].
      * left. exists post'. reflexivity.
      * right. exists pre'. split; reflexivity.
Qed.

Lemma accept_calls_split (pre post : list event) (fd r : Z) :
  (accept_calls (pre ++ Accept fd r :: post) > 0)%nat.
Proof. rewrite accept_calls_app. cbn. lia. Qed.

Lemma serve_rounds (o : os) (fuel : nat) (tfd : Z)
    (p : proc) :
  tfd <> -1 ->
  exists p' evs,
    Daytimed.serve o fuel tfd p = (Running, p') /\
    trace p' = trace p ++ evs /\
    accept_calls evs = fuel /\
    accepted evs = closed evs /\
    length (sends evs) = (2 * length (accepted evs))%nat /\
    (forall pre fd r post,
        evs = pre ++ Accept fd r :: post -> accepted pre = closed pre) /\
    opened evs = [] /\ silent evs.
Proof.
  intros Htfd. apply Z.eqb_neq in Htfd.
  revert p. induction fuel as [| fuel IH]; intros p;
    cbn [Daytimed.serve]; rewrite Htfd.
  - exists p, []. split; [reflexivity |].
    split; [now rewrite app_nil_r |].
    repeat split; try reflexivity.
    intros pre fd r post H. destruct pre; discriminate.
  - destruct (session_ledger o tfd p)
      as (p1 & r1 & rest & Hrun & Htr & Hn & Hac & Hop & [Hso Hse] & Hsd).
    erewrite bind_ret by exact Hrun.
    destruct (IH p1) as (p' & evs & Hloop & Htr' & Hn' & Hac' & Hsd' & Hser
                         & Hop' & [Hso' Hse']).
    exists p', ((Accept tfd r1 :: rest) ++ evs).
    split; [exact Hloop |].
    split; [rewrite Htr', Htr; now rewrite <- app_assoc |].
    split; [rewrite accept_calls_app; cbn [accept_calls]; lia |].
    split; [now rewrite accepted_app, closed_app, Hac, Hac' |].
    split.
    { rewrite sends_app, accepted_app, !length_app, Hsd', Hac.
      cbn [sends closed]. lia. }
    split.
    { intros pre fd r post H.
      apply accept_split in H.
      destruct H as [[post' H] | (pre' & -> & H)].
      - destruct pre as [| e pre]; [reflexivity |].
        cbn in H. injection H as <- H.
        pose proof (accept_calls_split pre post' fd r) as Hpos.
        rewrite <- H in Hpos. lia.
      - rewrite accepted_app, closed_app, Hac. f_equal. now apply (Hser _ fd r post). }
    split; [rewrite opened_app, Hop'; cbn [opened]; now rewrite Hop |].
    split.
    + rewrite stdout_of_app, Hso'. cbn [stdout_of]. now rewrite Hso.
    + rewrite stderr_of_app, Hse'. cbn [stderr_of]. now rewrite Hse.
Qed.

(** X5. The server's loop handles one association at a time.  With a
    valid listening descriptor, after any number [fuel] of rounds the loop
    is still running and has made exactly [fuel] accept calls; every
    descriptor accept handed out has been closed, in the same order, and
    two messages were sent for each; whenever the loop calls accept, no
    accepted descriptor is open.  The loop opens no socket and writes
    nothing to the standard channels. *)
Theorem serve_one_association_at_a_time (o : os) (fuel : nat) (tfd : Z)
    (p : proc) :
  tfd <> -1 ->
  exists p' evs,
    Daytimed.serve o fuel tfd p = (Running, p') /\
    trace p' = trace p ++ evs /\
    accept_calls evs = fuel /\
    accepted evs = closed evs /\
    length (sends evs) = (2 * length (accepted evs))%nat /\
    (forall pre fd r post,
        evs = pre ++ Accept fd r :: post -> accepted pre = closed pre) /\
    opened evs = [] /\ silent evs.
Proof. exact (serve_rounds o fuel tfd p). Qed.

Lemma serve_one_association_at_a_time_witness :
  exists p' evs,
    Daytimed.serve (os_serving 21) 3 3 proc0 = (Running, p') /\
    trace p' = trace proc0 ++ evs /\
    accept_calls evs = 3%nat /\
    accepted evs = closed evs /\
    length (sends evs) = (2 * length (accepted evs))%nat /\
    (forall pre fd r post,
        evs = pre ++ Accept fd r :: post -> accepted pre = closed pre) /\
    opened evs = [] /\ silent evs.
Proof.
  apply (serve_one_association_at_a_time (os_serving 21) 3 3 proc0).
  discriminate.
Defined.

(** *** The two [main] functions *)

Lemma bind_running_state {A B} (m : M A) (k : A -> M B) (p p' : proc) :
  m p = (Running, p') -> Sys.bind m k p = (Running, p').
Proof. intros H. unfold Sys.bind. now rewrite H. Qed.

(** X7. Started with the wrong number of arguments, either program
    prints its usage line on the error channel and does nothing else: no
    system call is made and no log is opened.  The server leaves through
    [exit(EXIT_FAILURE)], the client returns [EXIT_FAILURE] from
    [main]. *)
Theorem wrong_arity_is_a_usage_error (o : os) (fuel : nat)
    (argv : list text) (p : proc) :
  (length argv <> 2%nat ->
   Daytimed.main o fuel argv p =
     (Exit EXIT_FAILURE,
      {| tick := tick p; errno := errno p;
         trace := trace p ++ [Stderr (txt "usage: daytimed port" ++ [LF])] |}))
  /\
  (length argv <> 3%nat ->
   Daytime.main o fuel argv p =
     (Ret EXIT_FAILURE,
      {| tick := tick p; errno := errno p;
         trace := trace p
                    ++ [Stderr (txt "usage: daytime host port" ++ [LF])] |})).
Proof.
  split; intros H.
  - unfold Daytimed.main.
    replace (Z.of_nat (length argv) =? 2) with false
      by (symmetry; apply Z.eqb_neq; lia).
    reflexivity.
  - unfold Daytime.main.
    replace (Z.of_nat (length argv) =? 3) with false
      by (symmetry; apply Z.eqb_neq; lia).
    reflexivity.
Qed.

Lemma wrong_arity_is_a_usage_error_witness :
  Daytimed.main os_unreachable 4 [txt "daytimed"] proc0 =
    (Exit EXIT_FAILURE,
     {| tick := 0; errno := 0;
        trace := [Stderr (txt "usage: daytimed port" ++ [LF])] |})
  /\
  Daytime.main os_unreachable 4 [txt "daytime"; txt "localhost"] proc0 =
    (Ret EXIT_FAILURE,
     {| tick := 0; errno := 0;
        trace := [Stderr (txt "usage: daytime host port" ++ [LF])] |}).
Proof.
  split.
  - apply (proj1 (wrong_arity_is_a_usage_error os_unreachable 4
                    [txt "daytimed"] proc0)).
    cbn. lia.
  - apply (proj2 (wrong_arity_is_a_usage_error os_unreachable 4
                    [txt "daytime"; txt "localhost"] proc0)).
    cbn. lia.
Defined.

(** *** Accepting and sending on the server *)

(** X8. On the server the reverse lookup of the peer is soft.  After a
    successful accept, [sctp_accept] returns the accepted descriptor
    whatever getnameinfo answers; it writes one log entry, "connection
    from host:service" at debug priority when the lookup worked and the
    resolver's error at error priority when it did not, and makes no
    other call. *)
Theorem sctp_accept_lookup_is_soft (o : os) (listenfd : Z) (p : proc) :
  fst (os_accept o (tick p) listenfd) <> -1 ->
  Daytimed.sctp_accept o listenfd p =
    (Ret (fst (os_accept o (tick p) listenfd)),
     {| tick := S (S (tick p));
        errno := if fst (os_accept o (tick p) listenfd) <? 0
                 then os_errno o (tick p) else errno p;
        trace :=
          trace p ++
          [Accept listenfd (fst (os_accept o (tick p) listenfd));
           if fst (os_getnameinfo o (S (tick p))
                     (snd (os_accept o (tick p) listenfd)) NI_NUMERICHOST)
                =? 0
           then Syslog LOG_DEBUG
                  (txt "connection from "
                     ++ fst (snd (os_getnameinfo o (S (tick p))
                                    (snd (os_accept o (tick p) listenfd))
                                    NI_NUMERICHOST))
                     ++ txt ":"
                     ++ snd (snd (os_getnameinfo o (S (tick p))
                                    (snd (os_accept o (tick p) listenfd))
                                    NI_NUMERICHOST)))
           else Syslog LOG_ERR
                  (txt "getnameinfo failed: "
                     ++ os_gai_strerror o
                          (fst (os_getnameinfo o (S (tick p))
                                  (snd (os_accept o (tick p) listenfd))
                                  NI_NUMERICHOST)))] |}).
Proof.
  intros H. unfold Daytimed.sctp_accept, accept.
  erewrite bind_ret by apply syscall_run.
  destruct (os_accept o (tick p) listenfd) as [fd ss]. cbn [fst snd] in *.
  apply Z.eqb_neq in H. rewrite H.
  unfold getnameinfo, ask. erewrite bind_ret by reflexivity.
  cbn [tick errno trace].
  destruct (os_getnameinfo o (S (tick p)) ss NI_NUMERICHOST)
    as [n [host serv]].
  cbn [fst snd].
  destruct (n =? 0); cbn [negb]; erewrite bind_ret by reflexivity;
    cbn; now rewrite <- app_assoc.
Qed.

Lemma sctp_accept_lookup_is_soft_witness :
  Daytimed.sctp_accept (os_serving 21) 3 proc0 =
    (Ret 4,
     {| tick := 2; errno := 0;
        trace := [Accept 3 4;
                  Syslog LOG_DEBUG (txt "connection from 192.0.2.7:13")] |}).
Proof.
  apply (sctp_accept_lookup_is_soft (os_serving 21) 3 proc0).
  discriminate.
Defined.

(** The result of a send, of type int, stored in a [size_t] equals the
    length of a message of fewer than 2^63 bytes only when the result
    itself is that length. *)
Lemma size_t_compare (r len : Z) :
  is_int r -> 0 <= len < 2 ^ 63 ->
  (r mod SIZE_MOD =? len) = (r =? len).
Proof.
  unfold is_int, SIZE_MOD. intros Hr Hlen.
  destruct (Z_lt_le_dec r 0) as [Hneg | Hpos].
  - replace (r mod 2 ^ 64) with (r + 2 ^ 64).
    + destruct (Z.eqb_spec (r + 2 ^ 64) len), (Z.eqb_spec r len);
        try reflexivity; lia.
    + apply Z.mod_unique with (q := -1); lia.
  - now rewrite Z.mod_small by lia.
Qed.

Lemma formatted_length (o : os) (size local : Z) (buffer b : list ascii) :
  formatted o size local buffer b -> length b = length buffer.
Proof.
  intros [ticks Hf].
  destruct (if local =? 0 then os_gmtime o ticks else os_localtime o ticks).
  - subst b. unfold strftime. destruct (_ <=? size); cbn [snd];
      [apply blit_length | reflexivity].
  - subst b. apply length_insert.
Qed.

(** *** The client's receive phase as a whole *)

(** X11. On the client a failure to enable the stream metadata is soft.
    When both peer lookups work, the receive phase makes the setsockopt
    call, prints a diagnostic on the error channel if and only if the
    call did not return 0, and in either case enters the receive loop
    with the peer's host and service strings and a 128-byte buffer. *)
Theorem setsockopt_failure_is_soft (o : os) (fuel : nat) (fd : Z) (p : proc)
    (peer : sockaddr) (host serv : text) :
  os_getpeername o (tick p) fd = (0, peer) ->
  os_getnameinfo o (S (tick p)) peer (Z.lor NI_NUMERICHOST NI_NUMERICSERV)
    = (0, (host, serv)) ->
  exists message p',
    length message = 128%nat /\
    Daytime.daytime o fuel fd p
      = Daytime.receive o fuel fd host serv message p' /\
    tick p' = S (S (S (tick p))) /\
    trace p' =
      trace p
        ++ [Getpeername fd 0;
            Setsockopt fd SOL_SCTP SCTP_EVENTS
              (os_setsockopt o (S (S (tick p))) fd SOL_SCTP SCTP_EVENTS)]
        ++ (if os_setsockopt o (S (S (tick p))) fd SOL_SCTP SCTP_EVENTS =? 0
            then []
            else [Stderr (txt "daytime: setsockopt failed: "
                            ++ os_strerror o (errno p') ++ [LF])]).
Proof.
  intros Hpeer Hname. unfold Daytime.daytime.
  destruct (local_array_length o 128 p) as (message & Harr & Hlen).
  erewrite bind_ret by exact Harr.
  unfold getpeername. erewrite bind_ret by apply syscall_run.
  rewrite !Hpeer. cbn [fst snd].
  change (negb (0 =? 0)) with false. change (0 <? 0) with false. cbv iota.
  unfold getnameinfo, ask. erewrite bind_ret by reflexivity.
  cbn [tick errno trace]. rewrite Hname. cbn [fst snd].
  change (negb (0 =? 0)) with false. cbv iota.
  unfold setsockopt. erewrite bind_ret by apply syscall_run.
  cbn [id tick errno trace].
  set (s := os_setsockopt o (S (S (tick p))) fd SOL_SCTP SCTP_EVENTS).
  rewrite (Z.eqb_sym 0 s).
  destruct (s =? 0); cbn [negb].
  - erewrite bind_ret by reflexivity.
    eexists message, _. split; [exact Hlen |]. split; [reflexivity |].
    split; [reflexivity |]. cbn [trace]. now rewrite <- !app_assoc.
  - unfold get_errno, fprintf_stderr, emit.
    erewrite bind_ret by reflexivity.
    eexists message, _. split; [exact Hlen |]. split; [reflexivity |].
    split; [reflexivity |]. cbn [trace errno]. now rewrite <- !app_assoc.
Qed.

Lemma setsockopt_failure_is_soft_witness :
  exists message p',
    length message = 128%nat /\
    Daytime.daytime (os_receiving (txt "x") 0) 2 3 proc0
      = Daytime.receive (os_receiving (txt "x") 0) 2 3
          (txt "192.0.2.7") (txt "13") message p' /\
    tick p' = S (S (S (tick proc0))) /\
    trace p' =
      trace proc0
        ++ [Getpeername 3 0;
            Setsockopt 3 SOL_SCTP SCTP_EVENTS
              (os_setsockopt (os_receiving (txt "x") 0)
                 (S (S (tick proc0))) 3 SOL_SCTP SCTP_EVENTS)]
        ++ (if os_setsockopt (os_receiving (txt "x") 0)
                 (S (S (tick proc0))) 3 SOL_SCTP SCTP_EVENTS =? 0
            then []
            else [Stderr (txt "daytime: setsockopt failed: "
                            ++ os_strerror (os_receiving (txt "x") 0)
                                 (errno p') ++ [LF])]).
Proof.
  apply (setsockopt_failure_is_soft (os_receiving (txt "x") 0) 2 3 proc0
           (txt "peer") (txt "192.0.2.7") (txt "13")).
  - reflexivity.
  - reflexivity.
Defined.

(** X12. The receive loop shows every message in the order of receipt and
    ends at the first receive that returns nothing.  When the environment
    hands over the messages [msgs] (each of at least one byte) and then
    answers with the end of the association (0) or an error (-1), the
    loop, followed for more rounds than there are messages, returns
    having made one receive call and one line or diagnostic per message,
    and a last receive call for which nothing is printed. *)
Theorem receive_shows_messages_in_order (o : os) (fuel : nat) (fd : Z)
    (host serv : text) (message : list ascii) (p : proc)
    (msgs : list (text * Z)) :
  length message = 128%nat ->
  (length msgs < fuel)%nat ->
  (forall i m, msgs !! i = Some m ->
               os_recvmsg o (tick p + i) fd = Some m /\ fst m <> []) ->
  (os_recvmsg o (tick p + length msgs) fd = None \/
   exists s, os_recvmsg o (tick p + length msgs) fd = Some ([], s)) ->
  exists p' n,
    Daytime.receive o fuel fd host serv message p = (Ret tt, p') /\
    (n = 0 \/ n = -1) /\
    trace p' = trace p ++ flat_map (round_events fd host serv) msgs
                 ++ [Recvmsg fd 127 n].
Proof.
  revert fuel message p.
  induction msgs as [| [data stream] msgs IH]; intros fuel message p Hlen Hfuel
    Hmsgs Hend.
  - destruct fuel as [| fuel]; [cbn in Hfuel; lia |].
    cbn [length] in Hend. rewrite Nat.add_0_r in Hend.
    cbn [Daytime.receive]. unfold sctp_recvmsg.
    erewrite bind_ret by apply syscall_run.
    destruct Hend as [Hend | [s Hend]]; rewrite Hend.
    + eexists _, (-1). split; [reflexivity |]. split; [now right |].
      reflexivity.
    + eexists _, 0. split; [reflexivity |]. split; [now left |].
      reflexivity.
  - destruct fuel as [| fuel]; [cbn in Hfuel; lia |].
    destruct (Hmsgs 0%nat (data, stream) eq_refl) as [Hrecv Hdata].
    rewrite Nat.add_0_r in Hrecv. cbn [fst] in Hdata.
    rewrite (receive_round o fuel fd host serv message p data stream
               Hlen Hrecv Hdata).
    assert (Hgot : (length (take 127 data) < length message)%nat).
    { rewrite length_take. lia. }
    destruct (terminate_received (take 127 data) message Hgot) as [_ Hl].
    rewrite Hlen in Hl.
    match goal with
    | |- context [Daytime.receive o fuel fd host serv ?m ?q] =>
        destruct (IH fuel m q Hl) as (p' & n & Hrun & Hn & Htr)
    end.
    + cbn [length] in Hfuel. lia.
    + intros i m Hi. cbn [tick].
      replace (S (tick p) + i)%nat with (tick p + S i)%nat by lia.
      apply Hmsgs. exact Hi.
    + cbn [tick length] in *.
      replace (S (tick p) + length msgs)%nat
        with (tick p + S (length msgs))%nat by lia.
      exact Hend.
    + exists p', n. split; [exact Hrun |]. split; [exact Hn |].
      rewrite Htr. cbn [trace flat_map]. unfold round_events at 2.
      cbn [fst snd]. rewrite c_str_until_crlf. now rewrite <- !app_assoc.
Qed.

Lemma receive_shows_messages_in_order_witness :
  exists p' n,
    Daytime.receive
      (make_os (0, [an_addr]) 3 0 0 (fun _ => 4) 0 0 None None full_send
         (fun t => if (t <? 2)%nat
                   then Some (txt "2026-11-02 23:07:05" ++ CRLF, Z.of_nat t)
                   else None))
      5 3 (txt "192.0.2.7") (txt "13") (replicate 128 "x"%char) proc0
      = (Ret tt, p') /\
    (n = 0 \/ n = -1) /\
    trace p' =
      trace proc0
        ++ flat_map (round_events 3 (txt "192.0.2.7") (txt "13"))
             [(txt "2026-11-02 23:07:05" ++ CRLF, 0);
              (txt "2026-11-02 23:07:05" ++ CRLF, 1)]
        ++ [Recvmsg 3 127 n].
Proof.
  apply receive_shows_messages_in_order.
  - reflexivity.
  - cbn. lia.
  - intros i m Hi. destruct i as [| [| i]]; cbn in Hi.
    + injection Hi as <-. split; [reflexivity | discriminate].
    + injection Hi as <-. split; [reflexivity | discriminate].
    + discriminate.
  - left. reflexivity.
Defined.

(** *** The client's descriptor from connect to exit *)

Lemma shown_ledger (host serv body : text) (stream : Z) (evs : list event) :
  opened (shown host serv body stream :: evs) = opened evs /\
  closed (shown host serv body stream :: evs) = closed evs.
Proof.
  unfold shown. destruct (stream =? 0); [| destruct (stream =? 1)];
    split; reflexivity.
Qed.

(** The receive loop returns or is still running; it opens and closes no
    descriptor. *)
Lemma receive_ledger (o : os) (fuel : nat) (fd : Z) (host serv : text) :
  forall (message : list ascii) (p : proc), exists r p' evs,
    Daytime.receive o fuel fd host serv message p = (r, p') /\
    (r = Ret tt \/ r = Running) /\
    trace p' = trace p ++ evs /\
    opened evs = [] /\ closed evs = [].
Proof.
  induction fuel as [| fuel IH]; intros message p.
  - exists Running, p, []. cbn. rewrite app_nil_r. auto.
  - cbn [Daytime.receive]. unfold sctp_recvmsg.
    erewrite bind_ret by apply syscall_run.
    set (r := match os_recvmsg o (tick p) fd with
              | Some (data, stream) =>
                  (Z.of_nat (length (take (Z.to_nat (128 - 1)) data)),
                   blit (take (Z.to_nat (128 - 1)) data) message,
                   stream mod U16_MOD)
              | None => (-1, message, 0)
              end).
    destruct r as [[n message'] stream].
    destruct (n >? 0).
    + erewrite bind_ret by apply (report_run o).
      match goal with
      | |- context [Daytime.receive o fuel fd host serv ?m ?q] =>
          destruct (IH m q) as (r' & p' & evs & Hrun & Hr & Htr & Hop & Hcl)
      end.
      exists r', p', (Recvmsg fd (128 - 1) n
                        :: shown host serv
                             (c_str (Daytime.terminate message' n)) stream
                        :: evs).
      split; [exact Hrun |]. split; [exact Hr |].
      split; [rewrite Htr; cbn [trace]; now rewrite <- !app_assoc |].
      destruct (shown_ledger host serv (c_str (Daytime.terminate message' n))
                  stream evs) as [Ho Hc].
      split.
      * change (opened (shown host serv
                          (c_str (Daytime.terminate message' n)) stream
                          :: evs) = []).
        now rewrite Ho.
      * change (closed (shown host serv
                          (c_str (Daytime.terminate message' n)) stream
                          :: evs) = []).
        now rewrite Hc.
    + eexists (Ret tt), _, [Recvmsg fd (128 - 1) n].
      split; [reflexivity |]. auto.
Qed.

(** The receive phase of the client, for every environment. *)
Lemma daytime_phase_ledger (o : os) (fuel : nat) (fd : Z) (p : proc) :
  exists r p' evs,
    Daytime.daytime o fuel fd p = (r, p') /\
    (r = Ret tt \/ r = Running) /\
    trace p' = trace p ++ evs /\
    opened evs = [] /\ closed evs = [].
Proof.
  unfold Daytime.daytime.
  destruct (local_array_length o 128 p) as (message & Harr & _).
  erewrite bind_ret by exact Harr.
  unfold getpeername. erewrite bind_ret by apply syscall_run.
  destruct (os_getpeername o (tick p) fd) as [n peer]. cbn [fst snd].
  destruct (n =? 0); cbn [negb].
  - unfold getnameinfo, ask. erewrite bind_ret by reflexivity.
    cbn [tick errno trace].
    destruct (os_getnameinfo o (S (tick p)) peer
                (Z.lor NI_NUMERICHOST NI_NUMERICSERV)) as [g [host serv]].
    destruct (g =? 0); cbn [negb].
    + unfold setsockopt. erewrite bind_ret by apply syscall_run.
      cbn [id tick errno trace].
      set (s := os_setsockopt o (S (S (tick p))) fd SOL_SCTP SCTP_EVENTS).
      destruct (0 =? s); cbn [negb]; erewrite bind_ret by reflexivity;
        match goal with
        | |- context [Daytime.receive o fuel fd host serv message ?q] =>
            destruct (receive_ledger o fuel fd host serv message q)
              as (r & p' & evs & Hrun & Hr & Htr & Hop & Hcl)
        end; cbn [trace] in Htr.
      * exists r, p', (Getpeername fd n :: Setsockopt fd SOL_SCTP SCTP_EVENTS s
                         :: evs).
        split; [exact Hrun |]. split; [exact Hr |].
        split; [rewrite Htr; now rewrite <- !app_assoc |]. auto.
      * eexists r, p', (Getpeername fd n
                          :: Setsockopt fd SOL_SCTP SCTP_EVENTS s
                          :: Stderr _ :: evs).
        split; [exact Hrun |]. split; [exact Hr |].
        split; [rewrite Htr; now rewrite <- !app_assoc |]. auto.
    + erewrite bind_ret by reflexivity.
      eexists (Ret tt), _, [Getpeername fd n; Stderr _].
      split; [reflexivity |]. split; [now left |].
      split; [cbn [trace]; now rewrite <- !app_assoc |]. auto.
  - erewrite bind_ret by reflexivity.
    eexists (Ret tt), _, [Getpeername fd n; Stderr _].
    split; [reflexivity |]. split; [now left |].
    split; [cbn [trace]; now rewrite <- !app_assoc |]. auto.
Qed.

(** X13. The client started with two arguments, on every host: when
    [main] returns, the status is [EXIT_SUCCESS] (also after a failed
    peer lookup), the last call is the close of the connected descriptor
    and every descriptor opened has been closed; when the process leaves
    through [exit], the status is [EXIT_FAILURE], nothing is on standard
    output and every descriptor opened has been closed; while the receive
    loop is still being followed, exactly the connected descriptor is
    open. *)
Theorem client_main_closes_what_it_opens (o : os) (fuel : nat)
    (prog host port : text) (p : proc) :
  exists evs,
    trace (snd (Daytime.main o fuel [prog; host; port] p)) = trace p ++ evs /\
    match fst (Daytime.main o fuel [prog; host; port] p) with
    | Ret status =>
        status = EXIT_SUCCESS /\ opened evs = closed evs /\
        exists evs0 fd, evs = evs0 ++ [Close fd] /\ 0 <= fd
    | Exit status =>
        status = EXIT_FAILURE /\ opened evs = closed evs /\
        stdout_of evs = []
    | Running =>
        exists fd, 0 <= fd /\ opened evs = closed evs ++ [fd]
    end.
Proof.
  unfold Daytime.main.
  change (negb (Z.of_nat (length [prog; host; port]) =? 3)) with false.
  cbn [nth].
  destruct (sctp_connect_cases o host port p)
    as (p1 & evs1 & Htr1 & Hso
        & [(fd & Hrun & Hfd & Hop & _ & _) | (Hrun & Hop & _)]).
  - erewrite bind_ret by exact Hrun.
    destruct (daytime_phase_ledger o fuel fd p1)
      as (r & p2 & evs2 & Hphase & [-> | ->] & Htr2 & Hop2 & Hcl2).
    + erewrite bind_ret by exact Hphase.
      unfold Daytime.sctp_close, close.
      erewrite bind_ret by apply syscall_run.
      exists (evs1 ++ evs2 ++ [Close fd]).
      cbn [fst snd ret trace]. rewrite Htr2, Htr1.
      split; [now rewrite <- !app_assoc |].
      split; [reflexivity |].
      split.
      { rewrite !opened_app, !closed_app, Hop, Hop2, Hcl2. cbn.
        now rewrite app_nil_r. }
      exists (evs1 ++ evs2), fd. split; [now rewrite <- app_assoc | exact Hfd].
    + erewrite bind_running_state by exact Hphase.
      exists (evs1 ++ evs2). cbn [fst snd]. rewrite Htr2, Htr1.
      split; [now rewrite <- !app_assoc |].
      exists fd. split; [exact Hfd |].
      rewrite !opened_app, !closed_app, Hop, Hop2, Hcl2.
      now rewrite !app_nil_r.
  - erewrite bind_exit by exact Hrun.
    exists evs1. cbn [fst snd]. auto.
Qed.

(** *** A session in terms of the answers it consults *)

Lemma daytime_at (o : os) (buffer : list ascii) (size local : Z) (p : proc) :
  exists b,
    Daytimed.daytime o buffer size local p =
      (Ret b,
       {| tick := S (tick p); errno := errno p;
          trace := trace p
                     ++ fmt_log (if local =? 0
                                 then os_gmtime o (os_time o (tick p))
                                 else os_localtime o (os_time o (tick p))) |})
    /\ formatted_at o size local buffer b (os_time o (tick p)).
Proof.
  unfold Daytimed.daytime, formatted_at. run_call.
  unfold gmtime, localtime.
  destruct (if local =? 0 then os_gmtime o (os_time o (tick p))
            else os_localtime o (os_time o (tick p))) as [t |].
  - eexists. split; [| reflexivity]. cbn. now rewrite app_nil_r.
  - eexists. split; [| reflexivity]. reflexivity.
Qed.

Lemma sctp_accept_run (o : os) (listenfd : Z) (p : proc) :
  fst (os_accept o (tick p) listenfd) <> -1 ->
  exists e,
    Daytimed.sctp_accept o listenfd p =
      (Ret (fst (os_accept o (tick p) listenfd)),
       {| tick := S (S (tick p)); errno := e;
          trace := trace p ++
            [Accept listenfd (fst (os_accept o (tick p) listenfd));
             peer_log_entry o (S (tick p))
               (snd (os_accept o (tick p) listenfd))] |}).
Proof.
  intros H. unfold Daytimed.sctp_accept, accept, peer_log_entry.
  erewrite bind_ret by apply syscall_run.
  destruct (os_accept o (tick p) listenfd) as [fd ss]. cbn [fst snd] in *.
  apply Z.eqb_neq in H. rewrite H.
  unfold getnameinfo, ask. erewrite bind_ret by reflexivity.
  cbn [tick errno trace].
  destruct (os_getnameinfo o (S (tick p)) ss NI_NUMERICHOST)
    as [n [host serv]].
  cbn [fst snd].
  destruct (n =? 0); cbn [negb]; erewrite bind_ret by reflexivity;
    eexists; cbn; now rewrite <- app_assoc.
Qed.

(** A session after a successful accept, call by call: the accept is
    call number [tick p], the peer lookup the next, the clock is read
    for the local time by the call after that, the first send follows,
    then the clock is read for UTC, the second send follows, and the
    close is last. *)
Lemma session_at (o : os) (listenfd : Z) (p : proc) :
  fst (os_accept o (tick p) listenfd) <> -1 ->
  exists msg b0 b1 p',
    length msg = 128%nat /\
    formatted_at o 128 1 msg b0 (os_time o (S (S (tick p)))) /\
    formatted_at o 128 0 b0 b1 (os_time o (S (S (S (S (tick p)))))) /\
    Daytimed.sctp_daytime o listenfd p = (Ret tt, p') /\
    trace p' =
      trace p
        ++ [Accept listenfd (fst (os_accept o (tick p) listenfd));
            peer_log_entry o (S (tick p))
              (snd (os_accept o (tick p) listenfd))]
        ++ fmt_log (os_localtime o (os_time o (S (S (tick p)))))
        ++ [Sendmsg (fst (os_accept o (tick p) listenfd)) (c_str b0) 0
              (os_sendmsg o (S (S (S (tick p))))
                 (fst (os_accept o (tick p) listenfd)) (c_str b0) 0)]
        ++ mismatch_log
             (os_sendmsg o (S (S (S (tick p))))
                (fst (os_accept o (tick p) listenfd)) (c_str b0) 0)
             b0 (txt "sctp_sendmsg failed (daytime_stream_local)")
        ++ fmt_log (os_gmtime o (os_time o (S (S (S (S (tick p)))))))
        ++ [Sendmsg (fst (os_accept o (tick p) listenfd)) (c_str b1) 1
              (os_sendmsg o (S (S (S (S (S (tick p))))))
                 (fst (os_accept o (tick p) listenfd)) (c_str b1) 1)]
        ++ mismatch_log
             (os_sendmsg o (S (S (S (S (S (tick p))))))
                (fst (os_accept o (tick p) listenfd)) (c_str b1) 1)
             b1 (txt "sctp_sendmsg failed (daytime_stream_gmt)")
        ++ [Close (fst (os_accept o (tick p) listenfd))].
Proof.
  intros Hacc. unfold Daytimed.sctp_daytime.
  destruct (local_array_length o 128 p) as (msg & Harr & Hlen).
  erewrite bind_ret by exact Harr.
  destruct (sctp_accept_run o listenfd p Hacc) as (e & Hrun).
  erewrite bind_ret by exact Hrun.
  set (client := fst (os_accept o (tick p) listenfd)) in *.
  assert (Hne : (client =? -1) = false) by now apply Z.eqb_neq.
  rewrite Hne.
  match goal with
  | |- context [Sys.bind (Daytimed.daytime o msg 128 1) _ ?q] =>
      destruct (daytime_at o msg 128 1 q) as (b0 & Hd0 & Hf0)
  end.
  erewrite bind_ret by exact Hd0. cbn [tick] in Hf0.
  change (1 =? 0) with false. cbv iota.
  unfold sctp_sendmsg. rewrite take_strlen.
  erewrite bind_ret by apply syscall_run. cbn [id tick errno trace].
  erewrite bind_ret by apply report_mismatch. cbn [tick errno trace].
  match goal with
  | |- context [Sys.bind (Daytimed.daytime o b0 128 0) _ ?q] =>
      destruct (daytime_at o b0 128 0 q) as (b1 & Hd1 & Hf1)
  end.
  erewrite bind_ret by exact Hd1. cbn [tick errno trace] in *.
  change (0 =? 0) with true. cbv iota.
  rewrite take_strlen.
  erewrite bind_ret by apply syscall_run. cbn [id tick errno trace].
  erewrite bind_ret by apply report_mismatch. cbn [tick errno trace].
  unfold Daytimed.sctp_close, close.
  erewrite bind_ret by apply syscall_run. cbn [id tick errno trace].
  exists msg, b0, b1. eexists.
  split; [exact Hlen |]. split; [exact Hf0 |]. split; [exact Hf1 |].
  split; [reflexivity |].
  cbn [trace]. unfold Daytimed.DAYTIME_STREAM_LOCAL, Daytimed.DAYTIME_STREAM_GMT.
  now rewrite <- !app_assoc.
Qed.

(** *** C9: a failed accept *)

(** C9. When accept fails, [sctp_accept] logs the error and returns -1,
    the session handler returns having done nothing else (no send, no
    close), and the loop of [main] goes on: its next action is the next
    accept call on the listening descriptor.  As long as the listening
    descriptor is valid the loop never ends, so the process does not
    exit. *)
Theorem accept_failure_is_not_fatal (o : os) (tfd : Z) (p : proc) :
  tfd <> -1 ->
  fst (os_accept o (tick p) tfd) = -1 ->
  exists p',
    trace p' = trace p ++
                 [Accept tfd (-1);
                  Syslog LOG_ERR (txt "accept failed: "
                                    ++ os_strerror o (os_errno o (tick p)))] /\
    Daytimed.sctp_accept o tfd p = (Ret (-1), p') /\
    Daytimed.sctp_daytime o tfd p = (Ret tt, p') /\
    (forall fuel,
       Daytimed.serve o (S fuel) tfd p = Daytimed.serve o fuel tfd p') /\
    (forall fuel q, fst (Daytimed.serve o fuel tfd q) = Running) /\
    (forall fuel, exists p'' rest,
       Daytimed.serve o (S (S fuel)) tfd p = (Running, p'') /\
       trace p'' =
         trace p ++
           [Accept tfd (-1);
            Syslog LOG_ERR (txt "accept failed: "
                              ++ os_strerror o (os_errno o (tick p)));
            Accept tfd (fst (os_accept o (S (tick p)) tfd))] ++ rest).
Proof.
  intros Htfd Hacc. eexists.
  split; [| split; [apply sctp_accept_failed, Hacc |]]; [reflexivity |].
  split; [apply sctp_daytime_accept_failed, Hacc |].
  assert (Hstep : forall fuel,
    Daytimed.serve o (S fuel) tfd p =
    Daytimed.serve o fuel tfd
      {| tick := S (tick p); errno := os_errno o (tick p);
         trace := trace p ++
                  [Accept tfd (-1);
                   Syslog LOG_ERR (txt "accept failed: "
                                     ++ os_strerror o (os_errno o (tick p)))]
      |}).
  { intros fuel. cbn [Daytimed.serve].
    replace (tfd =? -1) with false by (symmetry; now apply Z.eqb_neq).
    erewrite bind_ret by (apply sctp_daytime_accept_failed, Hacc).
    reflexivity. }
  split; [exact Hstep |].
  split; [intros fuel q; now apply serve_keeps_running |].
  intros fuel. rewrite Hstep.
  cbn [Daytimed.serve].
  replace (tfd =? -1) with false by (symmetry; now apply Z.eqb_neq).
  match goal with
  | |- context [Sys.bind (Daytimed.sctp_daytime o tfd) _ ?q] =>
      destruct (session_calls o tfd q) as (p1 & evs & Hrun & Htr & Hshape)
  end.
  erewrite bind_ret by exact Hrun. cbn [tick trace] in *.
  destruct (serve_rounds o fuel tfd p1 Htfd)
    as (p2 & evs2 & Hloop & Htr2 & _).
  destruct Hshape as [[Hfail (s & ->)] | [Hok Hev]].
  - exists p2, (Syslog LOG_ERR s :: evs2).
    split; [exact Hloop |].
    rewrite Htr2, Htr, Hfail. now rewrite <- !app_assoc.
  - destruct Hev as (l1 & l2 & l3 & m0 & m1 & r0 & r1 & -> & _).
    eexists p2, _.
    split; [exact Hloop |].
    rewrite Htr2, Htr. rewrite <- !app_assoc. cbn [app]. reflexivity.
Qed.

Lemma accept_failure_is_not_fatal_witness :
  exists p',
    trace p' = trace proc0 ++
                 [Accept 3 (-1);
                  Syslog LOG_ERR
                    (txt "accept failed: "
                       ++ os_strerror os_accept_fails
                            (os_errno os_accept_fails (tick proc0)))] /\
    Daytimed.sctp_accept os_accept_fails 3 proc0 = (Ret (-1), p') /\
    Daytimed.sctp_daytime os_accept_fails 3 proc0 = (Ret tt, p') /\
    (forall fuel,
       Daytimed.serve os_accept_fails (S fuel) 3 proc0 =
       Daytimed.serve os_accept_fails fuel 3 p') /\
    (forall fuel q, fst (Daytimed.serve os_accept_fails fuel 3 q) = Running) /\
    (forall fuel, exists p'' rest,
       Daytimed.serve os_accept_fails (S (S fuel)) 3 proc0 = (Running, p'') /\
       trace p'' =
         trace proc0 ++
           [Accept 3 (-1);
            Syslog LOG_ERR
              (txt "accept failed: "
                 ++ os_strerror os_accept_fails
                      (os_errno os_accept_fails (tick proc0)));
            Accept 3 (fst (os_accept os_accept_fails (S (tick proc0)) 3))]
           ++ rest).
Proof.
  apply (accept_failure_is_not_fatal os_accept_fails 3 proc0).
  - discriminate.
  - reflexivity.
Defined.

(** *** C6: a failed time breakdown *)


Lemma formatted_at_length (o : os) (size local : Z) (buffer b : list ascii)
    (ticks : Z) :
  formatted_at o size local buffer b ticks -> length b = length buffer.
Proof.
  unfold formatted_at.
  destruct (if local =? 0 then os_gmtime o ticks else os_localtime o ticks).
  - intros ->. unfold strftime. destruct (_ <=? size); cbn [snd];
      [apply blit_length | reflexivity].
  - intros ->. apply length_insert.
Qed.



(** *** C4: trimming and labelling of received messages *)

(** What the loop has done when it stops or runs out of fuel, after a
    first message of at least one byte: the receive call and the line or
    diagnostic for the message come first in its trace. *)
Lemma receive_round_trace (o : os) (fuel : nat) (fd : Z) (host serv : text)
    (message : list ascii) (p : proc) (data : text) (stream : Z) :
  length message = 128%nat ->
  os_recvmsg o (tick p) fd = Some (data, stream) ->
  data <> [] ->
  exists r q rest,
    Daytime.receive o (S fuel) fd host serv message p = (r, q) /\
    (r = Ret tt \/ r = Running) /\
    trace q = trace p ++
                [Recvmsg fd 127 (Z.of_nat (length (take 127 data)));
                 shown host serv (until_crlf (c_str (take 127 data)))
                   (stream mod U16_MOD)] ++ rest.
Proof.
  intros Hlen Hrecv Hdata.
  rewrite (receive_round o fuel fd host serv message p data stream
             Hlen Hrecv Hdata).
  match goal with
  | |- context [Daytime.receive o fuel fd host serv ?m ?q] =>
      destruct (receive_ledger o fuel fd host serv m q)
        as (r & p' & evs & Hrun & Hr & Htr & _)
  end.
  exists r, p', evs. split; [exact Hrun |]. split; [exact Hr |].
  rewrite Htr. cbn [trace]. now rewrite <- app_assoc.
Qed.



(** *** C10: a message without the terminator *)

(** C10 (the code on a message with a NUL byte).  The five bytes "ab",
    NUL, "cd" hold no "\r\n"; the line printed for them shows "ab", not
    the five bytes. *)
Lemma unterminated_message_is_cut_at_nul :
  contains CRLF ab_nul_cd = false /\
  trace (snd (Daytime.receive (os_receiving ab_nul_cd 0) 1 3
                (txt "192.0.2.7") (txt "13") (replicate 128 "x"%char) proc0))
  = [Recvmsg 3 127 5;
     Stdout (txt "192.0.2.7:13" ++ [TAB] ++ txt " ab (local time)" ++ [LF])].
Proof. split; vm_compute; reflexivity. Qed.

(** C10 (amended). When the bytes received contain no "\r\n", the message
    is not dropped: the buffer is NUL-terminated behind the bytes read and
    the string in it is shown untrimmed with the label of its stream, by
    the same rule as a terminated message.  The string shown is the bytes
    read up to their first NUL byte; it is all of them when they contain
    no NUL byte.  The receive call and this output are what the loop adds
    to the trace for the message. *)
Theorem unterminated_message_is_shown_untrimmed (o : os) (fuel : nat)
    (fd : Z) (host serv : text) (message : list ascii) (p : proc)
    (data : text) (stream : Z) :
  length message = 128%nat ->
  os_recvmsg o (tick p) fd = Some (data, stream) ->
  data <> [] ->
  ~ has_crlf (take 127 data) ->
  exists message',
    take (length (take 127 data)) message' = take 127 data /\
    message' !! length (take 127 data) = Some NUL /\
    c_str message' = c_str (take 127 data) /\
    (Forall (fun c => c <> NUL) (take 127 data) ->
       c_str message' = take 127 data) /\
    Daytime.receive o (S fuel) fd host serv message p =
    Daytime.receive o fuel fd host serv message'
      {| tick := S (tick p); errno := errno p;
         trace := trace p ++
                  [Recvmsg fd 127 (Z.of_nat (length (take 127 data)));
                   shown host serv (c_str message') (stream mod U16_MOD)] |}
    /\
    exists r q rest,
      Daytime.receive o (S fuel) fd host serv message p = (r, q) /\
      (r = Ret tt \/ r = Running) /\
      trace q = trace p ++
                  [Recvmsg fd 127 (Z.of_nat (length (take 127 data)));
                   shown host serv (c_str (take 127 data))
                     (stream mod U16_MOD)] ++ rest.
Proof.
  intros Hlen Hrecv Hdata Hno.
  pose proof (receive_round o fuel fd host serv message p data stream
                Hlen Hrecv Hdata) as Hrun.
  pose proof (receive_round_trace o fuel fd host serv message p data stream
                Hlen Hrecv Hdata) as Htrace.
  assert (Hgot : (length (take 127 data) < length message)%nat).
  { rewrite length_take. lia. }
  assert (Hnone : until_crlf (c_str (take 127 data)) = c_str (take 127 data)).
  { apply until_crlf_none. intros Hcr. apply Hno.
    now apply has_crlf_c_str. }
  exists (Daytime.terminate (blit (take 127 data) message)
            (Z.of_nat (length (take 127 data)))).
  pose proof (terminate_received (take 127 data) message Hgot) as [Hc' _].
  assert (Hterm :
    Daytime.terminate (blit (take 127 data) message)
      (Z.of_nat (length (take 127 data)))
    = take 127 data ++ NUL :: drop (S (length (take 127 data))) message).
  { unfold Daytime.terminate, strstr. rewrite Nat2Z.id.
    rewrite c_str_received by exact Hgot.
    pose proof (find_crlf (c_str (take 127 data)) 0) as Hfind.
    destruct (find_from CRLF (c_str (take 127 data)) 0) as [q |].
    - destruct Hfind as (k & _ & Hk & Hu).
      rewrite Hnone in Hu. apply (f_equal length) in Hu.
      rewrite length_take in Hu. lia.
    - now apply store_nul_received. }
  split; [rewrite Hterm; now rewrite take_app_length |].
  split.
  { rewrite Hterm, lookup_app_r by lia. now rewrite Nat.sub_diag. }
  split; [now rewrite Hc', Hnone |].
  split; [intros Hnul; rewrite Hc', Hnone; now apply c_str_no_nul |].
  split; [rewrite Hrun, Hc', Hnone; reflexivity |].
  rewrite Hnone in Htrace. exact Htrace.
Qed.

Lemma unterminated_message_is_shown_untrimmed_witness :
  exists message',
    take 5 message' = ab_nul_cd /\
    message' !! 5%nat = Some NUL /\
    c_str message' = txt "ab" /\
    exists r q rest,
      Daytime.receive (os_receiving ab_nul_cd 0) 2 3
        (txt "192.0.2.7") (txt "13") (replicate 128 "x"%char) proc0 = (r, q) /\
      (r = Ret tt \/ r = Running) /\
      trace q = trace proc0 ++
                  [Recvmsg 3 127 5;
                   shown (txt "192.0.2.7") (txt "13") (txt "ab") 0] ++ rest.
Proof.
  destruct (unterminated_message_is_shown_untrimmed
              (os_receiving ab_nul_cd 0) 1 3
              (txt "192.0.2.7") (txt "13") (replicate 128 "x"%char) proc0
              ab_nul_cd 0)
    as (message' & Htake & Hnul & Hstr & _ & _ & Htrace).
  - reflexivity.
  - reflexivity.
  - discriminate.
  - intros (pre & post & Heq).
    pose proof (contains_occurrence CRLF pre post) as Hc.
    rewrite <- Heq in Hc. vm_compute in Hc. discriminate Hc.
  - exists message'. split; [exact Htake |]. split; [exact Hnul |].
    split; [exact Hstr |]. exact Htrace.
Defined.

(** *** C7: the format of the daytime string *)








(** *** C8: message bodies are at most 127 bytes *)

Lemma until_crlf_length_le (s : text) :
  (length (until_crlf s) <= length s)%nat.
Proof.
  pose proof (find_crlf s 0) as Hfind.
  destruct (find_from CRLF s 0).
  - destruct Hfind as (k & _ & Hk & ->). rewrite length_take. lia.
  - rewrite Hfind. lia.
Qed.

(** Every receive call of the loop asks for 127 bytes and gets at most
    127, and every text the loop shows has at most 127 bytes. *)
Lemma receive_bounded (o : os) (fuel : nat) (fd : Z) (host serv : text) :
  forall (message : list ascii) (p : proc),
    length message = 128%nat ->
    exists r p' evs,
      Daytime.receive o fuel fd host serv message p = (r, p') /\
      trace p' = trace p ++ evs /\
      Forall (bounded_receive_event fd host serv) evs.
Proof.
  induction fuel as [| fuel IH]; intros message p Hlen.
  - exists Running, p, []. cbn. rewrite app_nil_r. auto.
  - destruct (os_recvmsg o (tick p) fd) as [[[| c data] stream] |] eqn:Hrecv.
    + cbn [Daytime.receive]. unfold sctp_recvmsg.
      erewrite bind_ret by apply syscall_run.
      cbn [tick errno trace]. rewrite !Hrecv.
      eexists (Ret tt), _, [Recvmsg fd 127 0].
      split; [reflexivity |]. split; [reflexivity |].
      apply Forall_cons; split; [| apply Forall_nil_2].
      left. exists 0. split; [reflexivity | lia].
    + assert (Hdata : c :: data <> []) by discriminate.
      rewrite (receive_round o fuel fd host serv message p (c :: data) stream
                 Hlen Hrecv Hdata).
      assert (Hgot : (length (take 127 (c :: data)) < length message)%nat).
      { rewrite length_take. lia. }
      destruct (terminate_received (take 127 (c :: data)) message Hgot)
        as [_ Hl].
      rewrite Hlen in Hl.
      match goal with
      | |- context [Daytime.receive o fuel fd host serv ?m ?q] =>
          destruct (IH m q Hl) as (r & p' & evs & Hrun & Htr & Hb)
      end.
      eexists r, p', (_ :: _ :: evs).
      split; [exact Hrun |].
      split; [rewrite Htr; cbn [trace]; now rewrite <- app_assoc |].
      apply Forall_cons; split.
      { left. eexists. split; [reflexivity |]. rewrite length_take. lia. }
      apply Forall_cons; split; [| exact Hb].
      right. eexists _, _. split; [reflexivity |].
      pose proof (until_crlf_length_le (c_str (take 127 (c :: data)))).
      pose proof (c_str_length_le (take 127 (c :: data))) as Hle.
      rewrite length_take in Hle. lia.
    + cbn [Daytime.receive]. unfold sctp_recvmsg.
      erewrite bind_ret by apply syscall_run.
      cbn [tick errno trace]. rewrite !Hrecv.
      eexists (Ret tt), _, [Recvmsg fd 127 (-1)].
      split; [reflexivity |]. split; [reflexivity |].
      apply Forall_cons; split; [| apply Forall_nil_2].
      left. exists (-1). split; [reflexivity | lia].
Qed.

(** C8. No message body exceeds 127 bytes.  On the server, where the
    fields of a broken-down time are C ints, a session always returns and
    every payload it sends, formatted in the 128-byte buffer, has at most
    127 bytes; after a successful accept these are the two messages on
    streams 0 and 1.  On the client, the receive loop with its 128-byte
    buffer asks for 127 bytes in every receive call and gets at most 127,
    and every text it shows has at most 127 bytes; of a message of at
    least one byte it takes at most 127 bytes and shows them cut at
    "\r\n". *)
Theorem message_bodies_fit (o : os) :
  (forall ticks t,
      os_localtime o ticks = Some t \/ os_gmtime o ticks = Some t ->
      tm_is_int t) ->
  (forall listenfd p, exists evs p',
      Daytimed.sctp_daytime o listenfd p = (Ret tt, p') /\
      trace p' = trace p ++ evs /\
      Forall (fun s => (length (snd (fst s)) <= 127)%nat) (sends evs) /\
      (fst (os_accept o (tick p) listenfd) <> -1 ->
       exists m0 m1,
         sends evs = [(fst (os_accept o (tick p) listenfd), m0, 0);
                      (fst (os_accept o (tick p) listenfd), m1, 1)])) /\
  (forall fuel fd host serv message p,
      length message = 128%nat ->
      exists r p' evs,
        Daytime.receive o fuel fd host serv message p = (r, p') /\
        trace p' = trace p ++ evs /\
        Forall (bounded_receive_event fd host serv) evs /\
        (forall data stream,
            (0 < fuel)%nat ->
            os_recvmsg o (tick p) fd = Some (data, stream) ->
            data <> [] ->
            exists rest,
              evs = [Recvmsg fd 127 (Z.of_nat (length (take 127 data)));
                     shown host serv (c_str (until_crlf (take 127 data)))
                       (stream mod U16_MOD)] ++ rest)).
Proof.
  intros Hint. split.
  - intros listenfd p.
    destruct (Z.eq_dec (fst (os_accept o (tick p) listenfd)) (-1)) as [H | H].
    + eexists [_; _], _.
      split; [apply sctp_daytime_accept_failed, H |].
      split; [reflexivity |]. split; [constructor | contradiction].
    + destruct (sctp_daytime_session o listenfd p H)
        as (msg & b0 & b1 & r0 & r1 & pre & log1 & p' & Hrun & Htr & Hlen
            & Hf0 & Hf1 & Hpre & Hlog).
      destruct (formatted_fits o 1 msg b0 Hint Hlen Hf0) as [Hl0 Hc0].
      destruct (formatted_fits o 0 b0 b1 Hint Hl0 Hf1) as [_ Hc1].
      eexists. exists p'. split; [exact Hrun |]. split; [exact Htr |].
      rewrite !sends_app.
      destruct (quiet_mismatch_log r0 b0
                  (txt "sctp_sendmsg failed (daytime_stream_local)"))
        as [Hm0 _].
      destruct (quiet_mismatch_log r1 b1
                  (txt "sctp_sendmsg failed (daytime_stream_gmt)"))
        as [Hm1 _].
      destruct Hpre as [Hpre _]. destruct Hlog as [Hlog _].
      rewrite Hpre, Hlog, Hm0, Hm1.
      cbn [sends app].
      split.
      * apply Forall_cons; split; [exact Hc0 |].
        apply Forall_cons; split; [exact Hc1 |].
        apply Forall_nil_2.
      * intros _. now exists (c_str b0), (c_str b1).
  - intros fuel fd host serv message p Hlen.
    destruct (receive_bounded o fuel fd host serv message p Hlen)
      as (r & p' & evs & Hrun & Htr & Hb).
    exists r, p', evs. split; [exact Hrun |]. split; [exact Htr |].
    split; [exact Hb |].
    intros data stream Hfuel Hrecv Hdata.
    destruct fuel as [| fuel]; [lia |].
    destruct (receive_round_trace o fuel fd host serv message p data stream
                Hlen Hrecv Hdata) as (r' & q & rest & Hrun' & _ & Htr').
    rewrite Hrun in Hrun'. injection Hrun' as _ <-.
    rewrite Htr in Htr'. apply app_inv_head in Htr'.
    exists rest. now rewrite c_str_until_crlf.
Qed.

Lemma message_bodies_fit_witness :
  (forall listenfd p, exists evs p',
      Daytimed.sctp_daytime (os_serving 21) listenfd p = (Ret tt, p') /\
      trace p' = trace p ++ evs /\
      Forall (fun s => (length (snd (fst s)) <= 127)%nat) (sends evs) /\
      (fst (os_accept (os_serving 21) (tick p) listenfd) <> -1 ->
       exists m0 m1,
         sends evs =
           [(fst (os_accept (os_serving 21) (tick p) listenfd), m0, 0);
            (fst (os_accept (os_serving 21) (tick p) listenfd), m1, 1)])) /\
  (forall fuel fd host serv message p,
      length message = 128%nat ->
      exists r p' evs,
        Daytime.receive (os_serving 21) fuel fd host serv message p = (r, p')
        /\ trace p' = trace p ++ evs /\
        Forall (bounded_receive_event fd host serv) evs /\
        (forall data stream,
            (0 < fuel)%nat ->
            os_recvmsg (os_serving 21) (tick p) fd = Some (data, stream) ->
            data <> [] ->
            exists rest,
              evs = [Recvmsg fd 127 (Z.of_nat (length (take 127 data)));
                     shown host serv (c_str (until_crlf (take 127 data)))
                       (stream mod U16_MOD)] ++ rest)).
Proof.
  apply (message_bodies_fit (os_serving 21)).
  intros ticks t [H | H]; injection H as <-;
    unfold tm_is_int, is_int; cbn; lia.
Defined.

(** *** The candidate loops, attempt by attempt *)

(** The trace of the client's loop is one block of calls per candidate
    that failed, in the order of the list, and then the socket and the
    successful connect of the candidate the loop stopped at, if any. *)
Lemma connect_loop_blocks (o : os) (ai : list addrinfo) (fd : Z) (p : proc) :
  exists ai' fd' p' tried blocks,
    Daytime.connect_loop o ai fd p = (Ret (ai', fd'), p') /\
    ai = tried ++ ai' /\
    Forall2 failed_connect_attempt tried blocks /\
    trace p' = trace p ++ concat blocks ++
      match ai' with
      | [] => []
      | a :: _ => [Socket (ai_family a) (ai_socktype a) IPPROTO_SCTP fd';
                   Connect fd' (ai_addr a) 0]
      end.
Proof.
  revert fd p. induction ai as [| a ai IH]; intros fd p.
  - exists [], fd, p, [], []. cbn. rewrite app_nil_r.
    repeat split; constructor.
  - cbn [Daytime.connect_loop]. unfold socket.
    erewrite bind_ret by apply syscall_run. cbn [id].
    set (s := os_socket o (tick p) (ai_family a) (ai_socktype a) IPPROTO_SCTP).
    destruct (s <? 0) eqn:Hs.
    + edestruct IH as (ai' & fd' & p' & tried & blocks & Hrun & Hai & Hbl
                       & Htr).
      exists ai', fd', p', (a :: tried),
        ([Socket (ai_family a) (ai_socktype a) IPPROTO_SCTP s] :: blocks).
      split; [exact Hrun |].
      split; [cbn; now rewrite Hai |].
      split.
      { constructor; [| exact Hbl]. left. exists s.
        split; [now apply Z.ltb_lt | reflexivity]. }
      rewrite Htr. cbn [trace concat]. now rewrite <- !app_assoc.
    + unfold connect. erewrite bind_ret by apply syscall_run. cbn [id tick].
      set (c := os_connect o (S (tick p)) s (ai_addr a)).
      apply Z.ltb_ge in Hs.
      destruct (c =? 0) eqn:Hc.
      * apply Z.eqb_eq in Hc.
        eexists (a :: ai), s, _, [], [].
        split; [reflexivity |].
        split; [reflexivity |].
        split; [constructor |].
        cbn [trace concat app]. rewrite Hc. now rewrite <- app_assoc.
      * unfold close. erewrite bind_ret by apply syscall_run.
        cbn [id tick trace errno].
        edestruct IH as (ai' & fd' & p' & tried & blocks & Hrun & Hai & Hbl
                         & Htr).
        exists ai', fd', p', (a :: tried),
          ([Socket (ai_family a) (ai_socktype a) IPPROTO_SCTP s;
            Connect s (ai_addr a) c; Close s] :: blocks).
        split; [exact Hrun |].
        split; [cbn; now rewrite Hai |].
        split.
        { constructor; [| exact Hbl]. right. exists s, c.
          split; [exact Hs |]. split; [now apply Z.eqb_neq | reflexivity]. }
        rewrite Htr. cbn [trace concat]. now rewrite <- !app_assoc.
Qed.

(** The same for the server's loop: a failed candidate whose socket was
    created has its socket option set, then its failed bind, then its
    close. *)
Lemma bind_loop_blocks (o : os) (ai : list addrinfo) (fd : Z) (p : proc) :
  exists ai' fd' p' tried blocks r,
    Daytimed.bind_loop o ai fd p = (Ret (ai', fd'), p') /\
    ai = tried ++ ai' /\
    Forall2 failed_bind_attempt tried blocks /\
    trace p' = trace p ++ concat blocks ++
      match ai' with
      | [] => []
      | a :: _ => [Socket (ai_family a) (ai_socktype a) IPPROTO_SCTP fd';
                   Setsockopt fd' SOL_SOCKET SO_REUSEADDR r;
                   Bind fd' (ai_addr a) 0]
      end.
Proof.
  revert fd p. induction ai as [| a ai IH]; intros fd p.
  - exists [], fd, p, [], [], 0. cbn. rewrite app_nil_r.
    repeat split; constructor.
  - cbn [Daytimed.bind_loop]. unfold socket.
    erewrite bind_ret by apply syscall_run. cbn [id].
    set (s := os_socket o (tick p) (ai_family a) (ai_socktype a) IPPROTO_SCTP).
    destruct (s <? 0) eqn:Hs.
    + edestruct IH as (ai' & fd' & p' & tried & blocks & r & Hrun & Hai & Hbl
                       & Htr).
      exists ai', fd', p', (a :: tried),
        ([Socket (ai_family a) (ai_socktype a) IPPROTO_SCTP s] :: blocks), r.
      split; [exact Hrun |].
      split; [cbn; now rewrite Hai |].
      split.
      { constructor; [| exact Hbl]. left. exists s.
        split; [now apply Z.ltb_lt | reflexivity]. }
      rewrite Htr. cbn [trace concat]. now rewrite <- !app_assoc.
    + unfold setsockopt. erewrite bind_ret by apply syscall_run.
      cbn [id tick trace errno].
      set (q := os_setsockopt o (S (tick p)) s SOL_SOCKET SO_REUSEADDR).
      unfold bind_addr. erewrite bind_ret by apply syscall_run.
      cbn [id tick trace errno].
      set (b := os_bind o (S (S (tick p))) s (ai_addr a)).
      apply Z.ltb_ge in Hs.
      destruct (b =? 0) eqn:Hb.
      * apply Z.eqb_eq in Hb.
        eexists (a :: ai), s, _, [], [], q.
        split; [reflexivity |].
        split; [reflexivity |].
        split; [constructor |].
        cbn [trace concat app]. rewrite Hb. now rewrite <- !app_assoc.
      * unfold close. erewrite bind_ret by apply syscall_run.
        cbn [id tick trace errno].
        edestruct IH as (ai' & fd' & p' & tried & blocks & r & Hrun & Hai
                         & Hbl & Htr).
        exists ai', fd', p', (a :: tried),
          ([Socket (ai_family a) (ai_socktype a) IPPROTO_SCTP s;
            Setsockopt s SOL_SOCKET SO_REUSEADDR q;
            Bind s (ai_addr a) b; Close s] :: blocks), r.
        split; [exact Hrun |].
        split; [cbn; now rewrite Hai |].
        split.
        { constructor; [| exact Hbl]. right. exists s, q, b.
          split; [exact Hs |]. split; [now apply Z.eqb_neq | reflexivity]. }
        rewrite Htr. cbn [trace concat]. now rewrite <- !app_assoc.
Qed.

(** X1. The candidate loop of the client's connection setup, for every
    environment and every address list: it returns, writes nothing to
    the standard channels, and tries the candidates in the order of the
    list, each with the SCTP protocol.  For every candidate that fails
    it makes a socket call and, when that gave a descriptor, a connect on
    the descriptor and, the connect having failed, the close of the
    descriptor, and nothing else.  It stops at the first candidate whose
    socket and connect both succeed: then the descriptor it returns is
    not negative, is the only one left open, and the last two calls are
    the socket and the successful connect of that candidate.  Otherwise
    it has tried every candidate and closed every descriptor it
    opened. *)
Theorem connect_loop_first_success (o : os) (ai : list addrinfo) (fd : Z)
    (p : proc) :
  exists ai' fd' p' evs tried,
    Daytime.connect_loop o ai fd p = (Ret (ai', fd'), p') /\
    trace p' = trace p ++ evs /\
    silent evs /\
    ai = tried ++ ai' /\
    attempts evs = map sctp_socket_of (tried ++ take 1 ai') /\
    (exists blocks,
        Forall2 failed_connect_attempt tried blocks /\
        evs = concat blocks ++
          match ai' with
          | [] => []
          | a :: _ => [Socket (ai_family a) (ai_socktype a) IPPROTO_SCTP fd';
                       Connect fd' (ai_addr a) 0]
          end) /\
    match ai' with
    | [] =>
        opened evs = closed evs /\
        Forall (fun r => r <> 0) (connect_results evs)
    | a :: _ =>
        0 <= fd' /\
        opened evs = closed evs ++ [fd'] /\
        exists evs0,
          evs = evs0 ++ [Socket (ai_family a) (ai_socktype a) IPPROTO_SCTP fd';
                         Connect fd' (ai_addr a) 0] /\
          Forall (fun r => r <> 0) (connect_results evs0)
    end.
Proof.
  destruct (connect_loop_walk o ai fd p)
    as (ai' & fd' & p' & evs & tried & Hrun & Htr & Hsil & Hai & Hatt & Hout).
  destruct (connect_loop_blocks o ai fd p)
    as (ai2 & fd2 & p2 & tried2 & blocks & Hrun2 & Hai2 & Hbl & Htr2).
  rewrite Hrun in Hrun2. injection Hrun2 as <- <- <-.
  assert (tried2 = tried) as ->.
  { apply (app_inv_tail ai'). congruence. }
  rewrite Htr in Htr2. apply app_inv_head in Htr2.
  exists ai', fd', p', evs, tried.
  split; [exact Hrun |]. split; [exact Htr |]. split; [exact Hsil |].
  split; [exact Hai |]. split; [exact Hatt |].
  split; [exists blocks; split; [exact Hbl | exact Htr2] | exact Hout].
Qed.

(** X2. The candidate loop of the server's listener, for every
    environment and every address list: as the client's loop, with bind
    in the place of connect, and with the request for SO_REUSEADDR between
    the socket call and the bind of every candidate whose socket was
    created, the failed ones and the successful one alike; the option is
    requested on every descriptor the loop opens, and on nothing else. *)
Theorem bind_loop_first_success (o : os) (ai : list addrinfo) (fd : Z)
    (p : proc) :
  exists ai' fd' p' evs tried,
    Daytimed.bind_loop o ai fd p = (Ret (ai', fd'), p') /\
    trace p' = trace p ++ evs /\
    silent evs /\
    ai = tried ++ ai' /\
    attempts evs = map sctp_socket_of (tried ++ take 1 ai') /\
    reuse_requests evs = opened evs /\
    (exists blocks r,
        Forall2 failed_bind_attempt tried blocks /\
        evs = concat blocks ++
          match ai' with
          | [] => []
          | a :: _ => [Socket (ai_family a) (ai_socktype a) IPPROTO_SCTP fd';
                       Setsockopt fd' SOL_SOCKET SO_REUSEADDR r;
                       Bind fd' (ai_addr a) 0]
          end) /\
    match ai' with
    | [] =>
        opened evs = closed evs /\
        Forall (fun r => r <> 0) (bind_results evs)
    | a :: _ =>
        0 <= fd' /\
        opened evs = closed evs ++ [fd'] /\
        exists evs0 r,
          evs = evs0 ++ [Socket (ai_family a) (ai_socktype a) IPPROTO_SCTP fd';
                         Setsockopt fd' SOL_SOCKET SO_REUSEADDR r;
                         Bind fd' (ai_addr a) 0] /\
          Forall (fun r => r <> 0) (bind_results evs0)
    end.
Proof.
  destruct (bind_loop_walk o ai fd p)
    as (ai' & fd' & p' & evs & tried & Hrun & Htr & Hsil & Hai & Hatt
        & Hreuse & Hout).
  destruct (bind_loop_blocks o ai fd p)
    as (ai2 & fd2 & p2 & tried2 & blocks & r & Hrun2 & Hai2 & Hbl & Htr2).
  rewrite Hrun in Hrun2. injection Hrun2 as <- <- <-.
  assert (tried2 = tried) as ->.
  { apply (app_inv_tail ai'). congruence. }
  rewrite Htr in Htr2. apply app_inv_head in Htr2.
  exists ai', fd', p', evs, tried.
  split; [exact Hrun |]. split; [exact Htr |]. split; [exact Hsil |].
  split; [exact Hai |]. split; [exact Hatt |]. split; [exact Hreuse |].
  split; [exists blocks, r; split; [exact Hbl | exact Htr2] | exact Hout].
Qed.

(** *** Failure messages of the listener *)

(** When every candidate fails as the server's loop reaches it, the loop
    runs off the end of the list. *)
Lemma bind_loop_all_fail (o : os) (ai : list addrinfo) :
  forall fd p,
    bind_candidates_fail o ai (tick p) = true ->
    exists fd' p',
      Daytimed.bind_loop o ai fd p = (Ret ([], fd'), p').
Proof.
  induction ai as [| a ai IH]; intros fd p Hfail.
  - exists fd, p. reflexivity.
  - cbn [Daytimed.bind_loop bind_candidates_fail] in *.
    unfold socket. erewrite bind_ret by apply syscall_run. cbn [id].
    set (s := os_socket o (tick p) (ai_family a) (ai_socktype a) IPPROTO_SCTP)
      in *.
    destruct (s <? 0) eqn:Hs.
    + match goal with
      | |- context [Daytimed.bind_loop o ai s ?q] =>
          destruct (IH s q Hfail) as (fd' & p' & Hrun)
      end.
      exists fd', p'. exact Hrun.
    + apply andb_prop in Hfail. destruct Hfail as [Hb Hrest].
      unfold setsockopt. erewrite bind_ret by apply syscall_run.
      cbn [id tick trace errno].
      unfold bind_addr. erewrite bind_ret by apply syscall_run.
      cbn [id tick trace errno].
      apply negb_true_iff in Hb. rewrite Hb.
      unfold close. erewrite bind_ret by apply syscall_run.
      cbn [id tick trace errno].
      match goal with
      | |- context [Daytimed.bind_loop o ai s ?q] =>
          destruct (IH s q Hrest) as (fd' & p' & Hrun)
      end.
      exists fd', p'. exact Hrun.
Qed.

(** X14. For every port, if the server's resolution fails, or every
    resolved candidate fails when the loop reaches it (its socket cannot
    be created or its bind fails), [sctp_listen] returns -1 after printing
    exactly one message on the error channel and nothing on standard
    output.  After a failed resolution the message is the resolver's
    error text and nothing else was done (no socket call).  After the
    candidates are exhausted the message is "bind failed for port" with
    the port argument, and before it the loop has made the calls of one
    failed attempt per candidate, in the order of the list. *)
Theorem listen_failure_message (o : os) (port : text) (p : proc) :
  fst (os_getaddrinfo o (tick p) None port Daytimed.listen_hints) <> 0
  \/ bind_candidates_fail o
       (snd (os_getaddrinfo o (tick p) None port Daytimed.listen_hints))
       (S (tick p)) = true ->
  exists p' evs,
    Daytimed.sctp_listen o port p = (Ret (-1), p') /\
    trace p' = trace p ++ evs /\
    stdout_of evs = [] /\
    stderr_of evs =
      [if fst (os_getaddrinfo o (tick p) None port Daytimed.listen_hints) =? 0
       then txt "daytimed: bind failed for port " ++ port ++ [LF]
       else txt "daytimed: getaddrinfo failed: "
              ++ os_gai_strerror o
                   (fst (os_getaddrinfo o (tick p) None port
                           Daytimed.listen_hints)) ++ [LF]] /\
    (fst (os_getaddrinfo o (tick p) None port Daytimed.listen_hints) <> 0 ->
     attempts evs = [] /\
     evs = [Stderr (txt "daytimed: getaddrinfo failed: "
                      ++ os_gai_strerror o
                           (fst (os_getaddrinfo o (tick p) None port
                                   Daytimed.listen_hints)) ++ [LF])]) /\
    (fst (os_getaddrinfo o (tick p) None port Daytimed.listen_hints) = 0 ->
     exists blocks,
       Forall2 failed_bind_attempt
         (snd (os_getaddrinfo o (tick p) None port Daytimed.listen_hints))
         blocks /\
       evs = concat blocks
               ++ [Stderr (txt "daytimed: bind failed for port "
                             ++ port ++ [LF])]).
Proof.
  intros H. unfold Daytimed.sctp_listen. unfold getaddrinfo, ask.
  erewrite bind_ret by reflexivity.
  destruct (os_getaddrinfo o (tick p) None port Daytimed.listen_hints)
    as [n ai_list].
  cbn [fst snd] in *.
  destruct (n =? 0) eqn:Hn; cbn [negb].
  - apply Z.eqb_eq in Hn. destruct H as [H | H]; [congruence |].
    match goal with
    | |- context [Sys.bind (Daytimed.bind_loop o ai_list 0) _ ?q] =>
        destruct (bind_loop_all_fail o ai_list 0 q H) as (fd' & p1 & Hrun);
        destruct (bind_loop_blocks o ai_list 0 q)
          as (ai2 & fd2 & p2 & tried & blocks & r & Hrun2 & Hai & Hbl & Htr)
    end.
    rewrite Hrun in Hrun2. injection Hrun2 as <- <- <-.
    rewrite app_nil_r in Hai. subst tried.
    rewrite app_nil_r in Htr. cbn [trace] in Htr.
    erewrite bind_ret by exact Hrun. cbv iota beta.
    erewrite bind_ret by reflexivity.
    assert (Hsil : stdout_of (concat blocks) = []
                   /\ stderr_of (concat blocks) = []).
    { clear -Hbl. induction Hbl as [| a b tried blocks Ha _ IH];
        [split; reflexivity |].
      cbn [concat]. rewrite stdout_of_app, stderr_of_app.
      destruct IH as [-> ->].
      destruct Ha as [(s & _ & ->) | (s & q & c & _ & _ & ->)];
        split; reflexivity. }
    destruct Hsil as [Hso Hse].
    eexists {| tick := tick p1; errno := errno p1;
               trace := trace p1 ++ [Stderr _] |},
      (concat blocks ++ [Stderr _]).
    split; [reflexivity |].
    split; [cbn [trace]; rewrite Htr; now rewrite <- app_assoc |].
    split; [rewrite stdout_of_app, Hso; reflexivity |].
    split; [rewrite stderr_of_app, Hse; reflexivity |].
    split; [intros Hne; congruence |].
    intros _. exists blocks. split; [exact Hbl | reflexivity].
  - erewrite bind_ret by reflexivity.
    eexists {| tick := S (tick p); errno := errno p;
               trace := trace p ++ [Stderr _] |}, [Stderr _].
    split; [reflexivity |]. split; [reflexivity |].
    split; [reflexivity |]. split; [reflexivity |].
    split; [intros _; split; reflexivity |].
    intros H0. apply Z.eqb_neq in Hn. contradiction.
Qed.

Lemma listen_failure_message_witness :
  (exists p' evs,
    Daytimed.sctp_listen os_unreachable (txt "13") proc0 = (Ret (-1), p') /\
    trace p' = trace proc0 ++ evs /\
    stdout_of evs = [] /\
    stderr_of evs = [txt "daytimed: bind failed for port 13" ++ [LF]] /\
    exists blocks,
      Forall2 failed_bind_attempt [an_addr; an_addr] blocks /\
      evs = concat blocks
              ++ [Stderr (txt "daytimed: bind failed for port "
                            ++ txt "13" ++ [LF])]) /\
  (exists p' evs,
    Daytimed.sctp_listen os_no_socket (txt "13") proc0 = (Ret (-1), p') /\
    trace p' = trace proc0 ++ evs /\
    stdout_of evs = [] /\
    stderr_of evs = [txt "daytimed: bind failed for port 13" ++ [LF]] /\
    exists blocks,
      Forall2 failed_bind_attempt [an_addr; an_addr] blocks /\
      evs = concat blocks
              ++ [Stderr (txt "daytimed: bind failed for port "
                            ++ txt "13" ++ [LF])]).
Proof.
  split.
  - destruct (listen_failure_message os_unreachable (txt "13") proc0)
      as (p' & evs & Hrun & Htr & Hso & Hse & _ & Hbl).
    + right. reflexivity.
    + exists p', evs. split; [exact Hrun |]. split; [exact Htr |].
      split; [exact Hso |]. split; [exact Hse |]. exact (Hbl eq_refl).
  - destruct (listen_failure_message os_no_socket (txt "13") proc0)
      as (p' & evs & Hrun & Htr & Hso & Hse & _ & Hbl).
    + right. reflexivity.
    + exists p', evs. split; [exact Hrun |]. split; [exact Htr |].
      split; [exact Hso |]. split; [exact Hse |]. exact (Hbl eq_refl).
Defined.

(** *** The server's [main] *)




(** *** What the session sends, and what it logs about its sends *)

(** X9. A send that did not transfer the whole message is always logged,
    a complete send never.  In a session after a successful accept the
    calls are: the accept and the log entry for the peer, the formatting
    of the local time (with a log entry only when the breakdown failed),
    the send on stream 0, the formatting of the UTC time, the send on
    stream 1, and the close.  Behind each send whose result is a C int
    there is the error entry for that send when, and only when, the
    result differs from the length of the payload, and nothing else; in
    particular the result -1 of a failed send, stored in the unsigned
    [size_t], is logged. *)
Theorem incomplete_send_is_logged (o : os) (listenfd : Z) (p : proc) :
  fst (os_accept o (tick p) listenfd) <> -1 ->
  exists pay0 pay1 log0 log1 p',
    Daytimed.sctp_daytime o listenfd p = (Ret tt, p') /\
    trace p' =
      trace p
        ++ [Accept listenfd (fst (os_accept o (tick p) listenfd));
            peer_log_entry o (S (tick p))
              (snd (os_accept o (tick p) listenfd))]
        ++ fmt_log (os_localtime o (os_time o (S (S (tick p)))))
        ++ [Sendmsg (fst (os_accept o (tick p) listenfd)) pay0 0
              (os_sendmsg o (S (S (S (tick p))))
                 (fst (os_accept o (tick p) listenfd)) pay0 0)]
        ++ log0
        ++ fmt_log (os_gmtime o (os_time o (S (S (S (S (tick p)))))))
        ++ [Sendmsg (fst (os_accept o (tick p) listenfd)) pay1 1
              (os_sendmsg o (S (S (S (S (S (tick p))))))
                 (fst (os_accept o (tick p) listenfd)) pay1 1)]
        ++ log1
        ++ [Close (fst (os_accept o (tick p) listenfd))] /\
    (is_int (os_sendmsg o (S (S (S (tick p))))
               (fst (os_accept o (tick p) listenfd)) pay0 0) ->
     log0 =
       if os_sendmsg o (S (S (S (tick p))))
            (fst (os_accept o (tick p) listenfd)) pay0 0
          =? Z.of_nat (length pay0)
       then []
       else [Syslog LOG_ERR
               (txt "sctp_sendmsg failed (daytime_stream_local)")]) /\
    (is_int (os_sendmsg o (S (S (S (S (S (tick p))))))
               (fst (os_accept o (tick p) listenfd)) pay1 1) ->
     log1 =
       if os_sendmsg o (S (S (S (S (S (tick p))))))
            (fst (os_accept o (tick p) listenfd)) pay1 1
          =? Z.of_nat (length pay1)
       then []
       else [Syslog LOG_ERR
               (txt "sctp_sendmsg failed (daytime_stream_gmt)")]).
Proof.
  intros Hacc.
  destruct (session_at o listenfd p Hacc)
    as (msg & b0 & b1 & p' & Hlen & Hf0 & Hf1 & Hrun & Htr).
  pose proof (formatted_at_length _ _ _ _ _ _ Hf0) as Hl0.
  pose proof (formatted_at_length _ _ _ _ _ _ Hf1) as Hl1.
  pose proof (c_str_length_le b0) as Hc0.
  pose proof (c_str_length_le b1) as Hc1.
  exists (c_str b0), (c_str b1),
    (mismatch_log
       (os_sendmsg o (S (S (S (tick p))))
          (fst (os_accept o (tick p) listenfd)) (c_str b0) 0)
       b0 (txt "sctp_sendmsg failed (daytime_stream_local)")),
    (mismatch_log
       (os_sendmsg o (S (S (S (S (S (tick p))))))
          (fst (os_accept o (tick p) listenfd)) (c_str b1) 1)
       b1 (txt "sctp_sendmsg failed (daytime_stream_gmt)")),
    p'.
  split; [exact Hrun |]. split; [exact Htr |].
  split.
  - intros Hint. unfold mismatch_log, strlen.
    rewrite size_t_compare; [reflexivity | exact Hint | lia].
  - intros Hint. unfold mismatch_log, strlen.
    rewrite size_t_compare; [reflexivity | exact Hint | lia].
Qed.

Lemma incomplete_send_is_logged_witness :
  exists pay0 pay1 p',
    Daytimed.sctp_daytime (os_serving (-1)) 3 proc0 = (Ret tt, p') /\
    trace p' =
      [Accept 3 4;
       Syslog LOG_DEBUG (txt "connection from 192.0.2.7:13");
       Sendmsg 4 pay0 0 (-1);
       Syslog LOG_ERR (txt "sctp_sendmsg failed (daytime_stream_local)");
       Sendmsg 4 pay1 1 (-1);
       Syslog LOG_ERR (txt "sctp_sendmsg failed (daytime_stream_gmt)");
       Close 4].
Proof.
  destruct (incomplete_send_is_logged (os_serving (-1)) 3 proc0)
    as (pay0 & pay1 & log0 & log1 & p' & Hrun & Htr & H0 & H1).
  - vm_compute. discriminate.
  - assert (E : forall t fd pay s,
               os_sendmsg (os_serving (-1)) t fd pay s = -1) by reflexivity.
    rewrite !E in H0, H1, Htr.
    exists pay0, pay1, p'. split; [exact Hrun |].
    rewrite Htr, H0, H1 by (unfold is_int; cbn; lia).
    replace (-1 =? Z.of_nat (length pay0)) with false
      by (symmetry; apply Z.eqb_neq; lia).
    replace (-1 =? Z.of_nat (length pay1)) with false
      by (symmetry; apply Z.eqb_neq; lia).
    reflexivity.
Defined.

Lemma formatted_at_expansion (o : os) (local : Z) (buffer b : list ascii)
    (ticks : Z) (t : tm) :
  length buffer = 128%nat ->
  (if local =? 0 then os_gmtime o ticks else os_localtime o ticks) = Some t ->
  tm_is_int t ->
  formatted_at o 128 local buffer b ticks ->
  c_str b = strftime_expand Daytimed.DAYTIME_FORMAT t.
Proof.
  intros Hlen Hbd Hint Hf. unfold formatted_at in Hf. rewrite Hbd in Hf.
  pose proof (expansion_length t Hint) as He.
  rewrite strftime_fits in Hf by lia.
  subst b. rewrite c_str_app_nul.
  apply c_str_no_nul, expansion_not_nul.
Qed.

(** X10. When the two time breakdowns a session consults succeed (with
    fields that are C ints), the session after a successful accept sends
    exactly two messages on the accepted descriptor: on stream 0 the
    expansion of "%F %T\r\n" for the local time read before the first
    send, on stream 1 the expansion for the UTC time read before the
    second send, in this order, and closes the descriptor. *)
Theorem session_sends_local_then_gmt (o : os) (listenfd : Z) (p : proc)
    (t0 t1 : tm) :
  fst (os_accept o (tick p) listenfd) <> -1 ->
  os_localtime o (os_time o (S (S (tick p)))) = Some t0 ->
  os_gmtime o (os_time o (S (S (S (S (tick p)))))) = Some t1 ->
  tm_is_int t0 -> tm_is_int t1 ->
  exists b0 b1 p',
    Daytimed.sctp_daytime o listenfd p = (Ret tt, p') /\
    c_str b0 = strftime_expand (txt "%F %T" ++ CRLF) t0 /\
    c_str b1 = strftime_expand (txt "%F %T" ++ CRLF) t1 /\
    trace p' =
      trace p
        ++ [Accept listenfd (fst (os_accept o (tick p) listenfd));
            peer_log_entry o (S (tick p))
              (snd (os_accept o (tick p) listenfd))]
        ++ [Sendmsg (fst (os_accept o (tick p) listenfd))
              (strftime_expand (txt "%F %T" ++ CRLF) t0) 0
              (os_sendmsg o (S (S (S (tick p))))
                 (fst (os_accept o (tick p) listenfd))
                 (strftime_expand (txt "%F %T" ++ CRLF) t0) 0)]
        ++ mismatch_log
             (os_sendmsg o (S (S (S (tick p))))
                (fst (os_accept o (tick p) listenfd))
                (strftime_expand (txt "%F %T" ++ CRLF) t0) 0)
             b0 (txt "sctp_sendmsg failed (daytime_stream_local)")
        ++ [Sendmsg (fst (os_accept o (tick p) listenfd))
              (strftime_expand (txt "%F %T" ++ CRLF) t1) 1
              (os_sendmsg o (S (S (S (S (S (tick p))))))
                 (fst (os_accept o (tick p) listenfd))
                 (strftime_expand (txt "%F %T" ++ CRLF) t1) 1)]
        ++ mismatch_log
             (os_sendmsg o (S (S (S (S (S (tick p))))))
                (fst (os_accept o (tick p) listenfd))
                (strftime_expand (txt "%F %T" ++ CRLF) t1) 1)
             b1 (txt "sctp_sendmsg failed (daytime_stream_gmt)")
        ++ [Close (fst (os_accept o (tick p) listenfd))] /\
    sends (drop (length (trace p)) (trace p')) =
      [(fst (os_accept o (tick p) listenfd),
        strftime_expand (txt "%F %T" ++ CRLF) t0, 0);
       (fst (os_accept o (tick p) listenfd),
        strftime_expand (txt "%F %T" ++ CRLF) t1, 1)].
Proof.
  intros Hacc Hlt Hgt Hi0 Hi1.
  destruct (session_at o listenfd p Hacc)
    as (msg & b0 & b1 & p' & Hlen & Hf0 & Hf1 & Hrun & Htr).
  pose proof (formatted_at_length _ _ _ _ _ _ Hf0) as Hl0.
  rewrite Hlen in Hl0.
  pose proof (formatted_at_expansion o 1 msg b0 _ t0 Hlen Hlt Hi0 Hf0) as Hc0.
  pose proof (formatted_at_expansion o 0 b0 b1 _ t1 Hl0 Hgt Hi1 Hf1) as Hc1.
  rewrite Hlt, Hgt, Hc0, Hc1 in Htr. cbn [fmt_log app] in Htr.
  exists b0, b1, p'.
  split; [exact Hrun |]. split; [exact Hc0 |]. split; [exact Hc1 |].
  split; [exact Htr |].
  rewrite Htr, drop_app_length.
  cbn [app sends]. rewrite !sends_app.
  destruct (quiet_mismatch_log
              (os_sendmsg o (S (S (S (tick p))))
                 (fst (os_accept o (tick p) listenfd))
                 (strftime_expand Daytimed.DAYTIME_FORMAT t0) 0)
              b0 (txt "sctp_sendmsg failed (daytime_stream_local)"))
    as [Hm0 _].
  destruct (quiet_mismatch_log
              (os_sendmsg o (S (S (S (S (S (tick p))))))
                 (fst (os_accept o (tick p) listenfd))
                 (strftime_expand Daytimed.DAYTIME_FORMAT t1) 1)
              b1 (txt "sctp_sendmsg failed (daytime_stream_gmt)"))
    as [Hm1 _].
  unfold peer_log_entry.
  destruct (_ =? 0); cbn [sends app]; rewrite ?sends_app; cbn [sends app];
    fold Daytimed.DAYTIME_FORMAT;
    change (txt "%F %T" ++ CRLF) with Daytimed.DAYTIME_FORMAT;
    rewrite ?Hm0, ?Hm1; reflexivity.
Qed.

Lemma session_sends_local_then_gmt_witness :
  exists b0 b1 p',
    Daytimed.sctp_daytime (os_serving 21) 3 proc0 = (Ret tt, p') /\
    c_str b0 = txt "2026-11-02 23:07:05" ++ CRLF /\
    c_str b1 = txt "2026-11-02 23:07:05" ++ CRLF /\
    sends (drop (length (trace proc0)) (trace p')) =
      [(4, txt "2026-11-02 23:07:05" ++ CRLF, 0);
       (4, txt "2026-11-02 23:07:05" ++ CRLF, 1)].
Proof.
  destruct (session_sends_local_then_gmt (os_serving 21) 3 proc0 a_tm a_tm)
    as (b0 & b1 & p' & Hrun & Hc0 & Hc1 & _ & Hsends).
  - discriminate.
  - reflexivity.
  - reflexivity.
  - unfold tm_is_int, is_int; cbn; lia.
  - unfold tm_is_int, is_int; cbn; lia.
  - exists b0, b1, p'. split; [exact Hrun |]. split; [exact Hc0 |].
    split; [exact Hc1 |]. exact Hsends.
Defined.
